(** * A shallow embedding of torsiondrive's command-line front end

    This file models [src/torsiondrive/launch.py] ([load_dihedralfile],
    [create_engine], and [main] with its calls of both; the engine classes,
    [Molecule] and [DihedralScanner] are parameters) and, from
    [src/crank/tests/test_stack_api.py], [SimpleServer.make_geomeTRIC_input]
    and the job loop of [SimpleServer.run_crank_scan] with its grid-id
    decoding.

    Python [str] values are modelled as [list ascii] (the files are taken to
    be ASCII); Python ints are [Z]; a raised exception is the [Err]
    constructor of [result], carrying the exception class. *)

From Stdlib Require Import String Ascii List ZArith Lia Bool.
From Stdlib Require Import Sorting.Sorted Sorting.Permutation.
Import ListNotations.
Open Scope Z_scope.

(** ** Python values *)

Inductive py_error : Type :=
| ValueError
| AssertionError
| NameError
| KeyError
| OverflowError.

Inductive result (A : Type) : Type :=
| Ok (a : A)
| Err (e : py_error).
Arguments Ok {A} a.
Arguments Err {A} e.

Definition bind {A B} (r : result A) (k : A -> result B) : result B :=
  match r with
  | Ok a => k a
  | Err e => Err e
  end.

Notation "x <- r ;; k" := (bind r (fun x => k))
  (at level 61, r at next level, right associativity).

Definition is_err {A} (r : result A) : bool :=
  match r with Ok _ => false | Err _ => true end.

(** A Python [str], as a sequence of ASCII characters. *)
Definition pystr := list ascii.

(** A string literal. *)
Definition lit (s : string) : pystr := list_ascii_of_string s.

Fixpoint str_eqb (a b : pystr) : bool :=
  match a, b with
  | [], [] => true
  | x :: a', y :: b' => Ascii.eqb x y && str_eqb a' b'
  | _, _ => false
  end.

(** ** [str] methods *)

(** [str.isspace] on one ASCII character: HT, LF, VT, FF, CR, the four
    separators 0x1C-0x1F, and SPACE. *)
Definition is_space (c : ascii) : bool :=
  let n := nat_of_ascii c in
  (Nat.leb 9 n && Nat.leb n 13) || (Nat.leb 28 n && Nat.leb n 32).

Fixpoint lstrip (s : pystr) : pystr :=
  match s with
  | c :: r => if is_space c then lstrip r else s
  | [] => []
  end.

(** [s.strip()]. *)
Definition strip (s : pystr) : pystr := rev (lstrip (rev (lstrip s))).

(** [s.lower()] on ASCII. *)
Definition lower_char (c : ascii) : ascii :=
  let n := nat_of_ascii c in
  if Nat.leb 65 n && Nat.leb n 90 then ascii_of_nat (n + 32) else c.

Definition lower (s : pystr) : pystr := map lower_char s.

(** [s.split()]: runs of whitespace separate the fields, empty fields are
    dropped.  [cur] holds the current field, reversed. *)
Fixpoint split_ws_aux (cur : pystr) (s : pystr) : list pystr :=
  match s with
  | [] => match cur with [] => [] | _ => [rev cur] end
  | c :: r =>
      if is_space c then
        match cur with
        | [] => split_ws_aux [] r
        | _ => rev cur :: split_ws_aux [] r
        end
      else split_ws_aux (c :: cur) r
  end.

Definition split_ws (s : pystr) : list pystr := split_ws_aux [] s.

(** [s.split(sep)] with a one-character separator: every separator ends a
    field, empty fields are kept, so [''.split(',') == ['']]. *)
Fixpoint split_sep_aux (sep : ascii) (cur : pystr) (s : pystr) : list pystr :=
  match s with
  | [] => [rev cur]
  | c :: r =>
      if Ascii.eqb c sep then rev cur :: split_sep_aux sep [] r
      else split_sep_aux sep (c :: cur) r
  end.

Definition split_sep (sep : ascii) (s : pystr) : list pystr :=
  split_sep_aux sep [] s.

(** [sep.join(xs)]. *)
Fixpoint join (sep : pystr) (xs : list pystr) : pystr :=
  match xs with
  | [] => []
  | [x] => x
  | x :: r => x ++ sep ++ join sep r
  end.

(** ** [int(s)] and [str(n)] *)

Definition digit_val (c : ascii) : option Z :=
  let n := nat_of_ascii c in
  if Nat.leb 48 n && Nat.leb n 57 then Some (Z.of_nat n - 48) else None.

(** The digits after the first one: a digit, or one underscore followed by
    a digit (Python 3.6 allows [1_000]). *)
Fixpoint digits_aux (acc : Z) (s : pystr) : option Z :=
  match s with
  | [] => Some acc
  | c :: r =>
      match digit_val c with
      | Some d => digits_aux (acc * 10 + d) r
      | None =>
          if Ascii.eqb c "_"%char then
            match r with
            | c' :: r' =>
                match digit_val c' with
                | Some d => digits_aux (acc * 10 + d) r'
                | None => None
                end
            | [] => None
            end
          else None
      end
  end.

Definition parse_unsigned (s : pystr) : option Z :=
  match s with
  | c :: r => match digit_val c with Some d => digits_aux d r | None => None end
  | [] => None
  end.

(** [int(s)] for a [str] argument in base 10: surrounding whitespace, an
    optional sign, then ASCII digits; anything else raises [ValueError]
    ([None] here). *)
Definition parse_int (s : pystr) : option Z :=
  match strip s with
  | "-"%char :: r => option_map Z.opp (parse_unsigned r)
  | "+"%char :: r => parse_unsigned r
  | t => parse_unsigned t
  end.

Definition digit_char (d : Z) : ascii := ascii_of_nat (Z.to_nat d + 48).

(** The decimal digits of [n >= 0], prepended to [acc]; [fuel] bounds the
    number of digits. *)
Fixpoint to_dec_aux (fuel : nat) (n : Z) (acc : pystr) : pystr :=
  match fuel with
  | O => acc
  | S f =>
      if n <? 10 then digit_char n :: acc
      else to_dec_aux f (n / 10) (digit_char (n mod 10) :: acc)
  end.

Definition nat_fuel (n : Z) : nat := S (S (Z.to_nat (Z.log2 n))).

(** [str(n)] for a Python int (also what [%d] prints). *)
Definition str_int (n : Z) : pystr :=
  if n <? 0 then "-"%char :: to_dec_aux (nat_fuel (- n)) (- n) []
  else to_dec_aux (nat_fuel n) n [].

(** [int(x) for x in xs], raising on the first token that is no int. *)
Fixpoint parse_ints (xs : list pystr) : result (list Z) :=
  match xs with
  | [] => Ok []
  | x :: r =>
      match parse_int x with
      | Some v => vs <- parse_ints r ;; Ok (v :: vs)
      | None => Err ValueError
      end
  end.

(** ** [load_dihedralfile] (launch.py, lines 10-87) *)

(** The local state of the reading loop: the [zero_based_numbering]
    variable, [dihedral_idxs] and [dihedral_ranges]. *)
Record read_state : Type := mk_read_state {
  zero_based : bool;
  dihedral_idxs : list (list Z);
  dihedral_ranges : list (list Z)
}.

(** The classification of a stripped line used by the loop body. *)
Definition comment_of (t : pystr) : option pystr :=
  match t with
  | "#"%char :: rest => Some (lower (strip rest))
  | _ => None
  end.

(** One iteration of [for line in infile] (lines 62-79). *)
Definition read_line (st : read_state) (line : pystr) : result read_state :=
  let t := strip line in
  match t with
  | [] => Ok st
  | _ =>
    match comment_of t with
    | Some comment =>
        if str_eqb comment (lit "zero_based_numbering") then
          Ok (mk_read_state true (dihedral_idxs st) (dihedral_ranges st))
        else if str_eqb comment (lit "one_based_numbering") then
          if zero_based st then Err ValueError else Ok st
        else Ok st
    | None =>
        let ls := split_ws t in
        if Nat.eqb (length ls) 4 then
          d <- parse_ints ls ;;
          Ok (mk_read_state (zero_based st)
                (dihedral_idxs st ++ [map (fun i => i - 1) d])
                (dihedral_ranges st))
        else if Nat.eqb (length ls) 6 then
          d <- parse_ints (firstn 4 ls) ;;
          r <- parse_ints (skipn 4 ls) ;;
          Ok (mk_read_state (zero_based st)
                (dihedral_idxs st ++ [map (fun i => i - 1) d])
                (dihedral_ranges st ++ [r]))
        else Err ValueError
    end
  end.

(** The whole [with open(...)] loop. *)
Fixpoint read_lines (st : read_state) (lines : list pystr) : result read_state :=
  match lines with
  | [] => Ok st
  | l :: rest => st' <- read_line st l ;; read_lines st' rest
  end.

(** The code after the loop (lines 80-87).  The zero-based conversion is
    [i+i], as written on line 82.  The range assertion of line 86 iterates
    with [for l, r in dihedral_ranges] but reads the names [low] and [high],
    which are bound neither there nor in the function or module: its first
    element raises [NameError]; with no ranges, [all] of an empty generator
    is [True]. *)
Definition finish (st : read_state) : result (list (list Z) * list (list Z)) :=
  let idxs := if zero_based st
              then map (map (fun i => i + i)) (dihedral_idxs st)
              else dihedral_idxs st in
  if forallb (forallb (fun i => 0 <=? i)) idxs then
    match dihedral_ranges st with
    | [] => Ok (idxs, dihedral_ranges st)
    | _ :: _ => Err NameError
    end
  else Err AssertionError.

(** [load_dihedralfile(dihedralfile, zero_based_numbering)], the file given
    as the list of its lines. *)
Definition load_dihedralfile (lines : list pystr) (zero_based_numbering : bool)
  : result (list (list Z) * list (list Z)) :=
  st <- read_lines (mk_read_state zero_based_numbering [] []) lines ;;
  finish st.

Example load_ex1 :
  load_dihedralfile [lit "# i j k l"; lit "  1 2 3 4 "; lit "2 3 4 5"] false
  = Ok ([[0; 1; 2; 3]; [1; 2; 3; 4]], []).
Proof. reflexivity. Qed.

Example load_ex2 :
  load_dihedralfile [lit "1 2 3 4 -120 120"] false = Err NameError.
Proof. reflexivity. Qed.

Example load_ex3 :
  load_dihedralfile [lit "#Zero_Based_Numbering"; lit "1 2 3 4"] false
  = Ok ([[0; 2; 4; 6]], []).
Proof. reflexivity. Qed.

Example str_int_ex : str_int (-1203) = lit "-1203" /\ str_int 0 = lit "0".
Proof. split; reflexivity. Qed.

Example parse_int_ex : parse_int (lit " -1_000 ") = Some (-1000).
Proof. reflexivity. Qed.

(** ** Grid ids and the optimizer constraints (test_stack_api.py) *)

(** Modelled from the spec: the encoding of a grid point as a grid-id string
    (done by the crank server API, whose code is not among this repository's
    sources).  "Grid-point strings are comma-joined integers with no
    spaces": [','.join(str(v) for v in grid_id)]. *)
Definition encode_grid_id (grid_id : list Z) : pystr :=
  join [","%char] (map str_int grid_id).

(** [tuple(int(i) for i in grid_id_str.split(','))]
    ([SimpleServer.run_crank_scan], line 50). *)
Definition decode_grid_id (grid_id_str : pystr) : result (list Z) :=
  parse_ints (split_sep ","%char grid_id_str).

Definition nl : ascii := ascii_of_nat 10.
Definition sp : ascii := " "%char.

(** [float(v)] for an int [v]: the nearest double, ties to the even
    mantissa.  Every int with [|v| <= 2^53] is a double; above that the
    53-bit mantissa keeps the top bits of [|v|] and the [sh] bits below are
    rounded away.  A result of [2^1024] or more is out of range, and Python
    raises [OverflowError] ("int too large to convert to float"). *)
Definition int_to_float (v : Z) : result Z :=
  let a := Z.abs v in
  if a <=? 2 ^ 53 then Ok v
  else
    let sh := Z.log2 a - 52 in
    let q := a / 2 ^ sh in
    let r := a mod 2 ^ sh in
    let half := 2 ^ (sh - 1) in
    let q' := if r <? half then q
              else if half <? r then q + 1
              else if Z.even q then q else q + 1 in
    let m := q' * 2 ^ sh in
    if 2 ^ 1024 <=? m then Err OverflowError else Ok (Z.sgn v * m).

(** ['%f' % v] for an int [v]: [v] is converted by [float(v)], and the
    double, an integer here, is printed with all its digits and six
    decimals. *)
Definition format_f_int (v : Z) : result pystr :=
  x <- int_to_float v ;;
  Ok (str_int x ++ lit ".000000").

(** One line ["dihedral %d %d %d %d %f\n" % (d1+1, d2+1, d3+1, d4+1, v)];
    only the [%f] conversion can raise. *)
Definition constraint_line (dv : (Z * Z * Z * Z) * Z) : result pystr :=
  let '((d1, d2, d3, d4), v) := dv in
  f <- format_f_int v ;;
  Ok (lit "dihedral" ++ [sp] ++ str_int (d1 + 1) ++ [sp] ++ str_int (d2 + 1)
      ++ [sp] ++ str_int (d3 + 1) ++ [sp] ++ str_int (d4 + 1)
      ++ [sp] ++ f ++ [nl]).

(** The loop [for (d1, d2, d3, d4), v in zip(...)] of lines 67-69, each
    pass appending one line to [constraints_string]. *)
Fixpoint constraint_lines (dvs : list ((Z * Z * Z * Z) * Z)) : result pystr :=
  match dvs with
  | [] => Ok []
  | dv :: rest =>
      line <- constraint_line dv ;;
      lines <- constraint_lines rest ;;
      Ok (line ++ lines)
  end.

(** The ['constraints'] entry of the dict built by
    [SimpleServer.make_geomeTRIC_input(dihedral_values, geometry)] (lines
    66-69): ["$set\n"], then one line per pair of
    [zip(self.dihedrals, dihedral_values)]. *)
Definition make_geomeTRIC_constraints (dihedrals : list (Z * Z * Z * Z))
    (dihedral_values : list Z) : result pystr :=
  lines <- constraint_lines (combine dihedrals dihedral_values) ;;
  Ok (lit "$set" ++ [nl] ++ lines).

Example constraints_ex :
  make_geomeTRIC_constraints [(0, 1, 2, 3)] [-30]
  = Ok (lit "$set" ++ [nl] ++ lit "dihedral 1 2 3 4 -30.000000" ++ [nl]).
Proof. reflexivity. Qed.

Example int_to_float_ex :
  int_to_float (2 ^ 53 + 1) = Ok (2 ^ 53)
  /\ int_to_float (2 ^ 53 + 3) = Ok (2 ^ 53 + 4)
  /\ int_to_float (- (2 ^ 54 + 3)) = Ok (- (2 ^ 54 + 4))
  /\ int_to_float (2 ^ 1024 - 2 ^ 970) = Err OverflowError
  /\ int_to_float (2 ^ 1024 - 2 ^ 971) = Ok (2 ^ 1024 - 2 ^ 971).
Proof. repeat split; vm_compute; reflexivity. Qed.

Example grid_id_ex :
  encode_grid_id [-165; 0; 30] = lit "-165,0,30"
  /\ decode_grid_id (lit "-165,0,30") = Ok [-165; 0; 30]
  /\ decode_grid_id (encode_grid_id []) = Err ValueError.
Proof. repeat split; reflexivity. Qed.

(** ** [main] (launch.py, lines 104-159) *)

(** Modelled from the spec: a grid id, a key of the scanner's
    [grid_energies] (the [DihedralScanner] class is not among this
    repository's sources); "an ordered tuple of N integers". *)
Definition grid_id := list Z.

(** Python's [<] on two tuples of ints: the first index where the items
    differ decides; if there is none the shorter tuple is smaller. *)
Fixpoint py_tuple_lt (x y : grid_id) : bool :=
  match x, y with
  | [], [] => false
  | [], _ :: _ => true
  | _ :: _, [] => false
  | a :: x', b :: y' => if a =? b then py_tuple_lt x' y' else a <? b
  end.

(** [sorted(keys)]: a stable sort that compares with [<] only.  Each item is
    inserted after every item it is not smaller than. *)
Fixpoint sorted_insert (x : grid_id) (l : list grid_id) : list grid_id :=
  match l with
  | [] => [x]
  | y :: r => if py_tuple_lt x y then x :: y :: r else y :: sorted_insert x r
  end.

Definition python_sorted (l : list grid_id) : list grid_id :=
  fold_left (fun acc x => sorted_insert x acc) l [].

Fixpoint grid_id_eqb (x y : grid_id) : bool :=
  match x, y with
  | [], [] => true
  | a :: x', b :: y' => (a =? b) && grid_id_eqb x' y'
  | _, _ => false
  end.

(** [--grid_spacing] formatting (lines 136-142): used as given when there is
    one value per dihedral, [args.grid_spacing * grid_dim] (list repetition)
    when there is one value, [ValueError] otherwise. *)
Definition format_grid_spacing (grid_spacing : list Z) (grid_dim : nat)
  : result (list Z) :=
  let n_grid_spacing := length grid_spacing in
  if Nat.eqb n_grid_spacing grid_dim then Ok grid_spacing
  else if Nat.eqb n_grid_spacing 1 then Ok (concat (repeat grid_spacing grid_dim))
  else Err ValueError.

Example format_grid_spacing_ex :
  format_grid_spacing [15] 3 = Ok [15; 15; 15]
  /\ format_grid_spacing [15; 30] 2 = Ok [15; 30]
  /\ format_grid_spacing [15; 30] 3 = Err ValueError.
Proof. repeat split; reflexivity. Qed.

(** ** [create_engine] (launch.py, lines 89-102) *)

(** The three engine classes of [engine_dict]. *)
Inductive engine_class : Type :=
| EnginePsi4
| EngineQChem
| EngineTerachem.

(** [engine_dict[enginename]]: the key is compared as a [str]; [None] is a
    missing key. *)
Definition engine_dict (enginename : pystr) : option engine_class :=
  if str_eqb enginename (lit "psi4") then Some EnginePsi4
  else if str_eqb enginename (lit "qchem") then Some EngineQChem
  else if str_eqb enginename (lit "terachem") then Some EngineTerachem
  else None.

(** The effects of [create_engine] seen from outside: a [WorkQueue] opened
    on a port, and the call of an engine class. *)
Inductive engine_event : Type :=
| WorkQueueCreated (port : Z)
| EngineConstructorCalled (cls : engine_class).

Section CreateEngine.

Variables Engine WorkQueue Constraints : Type.

(** [WorkQueue(work_queue_port)] (wq_tools, with its import) and the call
    [EngineX(inputfile, work_queue, native_opt=..., extra_constraints=...)]
    of the engine classes (qm_engine); both may raise. *)
Variable new_work_queue : Z -> result WorkQueue.
Variable new_engine : engine_class -> option pystr -> option WorkQueue -> bool
  -> option Constraints -> result Engine.

Definition create_engine (enginename : pystr) (inputfile : option pystr)
    (work_queue_port : option Z) (native_opt : bool)
    (extra_constraints : option Constraints) : result Engine * list engine_event :=
  let '(work_queue, tr) :=
    match work_queue_port with
    | Some port =>
        match new_work_queue port with
        | Ok q => (Ok (Some q), [WorkQueueCreated port])
        | Err e => (Err e, [])
        end
    | None => (Ok None, [])
    end in
  match work_queue with
  | Err e => (Err e, tr)
  | Ok wq =>
      match engine_dict enginename with
      | None => (Err KeyError, tr)
      | Some cls =>
          (new_engine cls inputfile wq native_opt extra_constraints,
           tr ++ [EngineConstructorCalled cls])
      end
  end.

End CreateEngine.

Arguments create_engine {Engine WorkQueue Constraints} new_work_queue new_engine
  enginename inputfile work_queue_port native_opt extra_constraints.

Section Main.

(** The energies the scanner reports (floats, never inspected here), the
    engine and its work queue, the constraints dict of qm_engine, and the
    geomeTRIC [Molecule]. *)
Variables Energy Engine WorkQueue Constraints Molecule : Type.

(** What [main] does that can be observed from outside: lines printed, the
    effects of [create_engine] and the engine it returns, the start of the
    scan with the grid spacing handed to [DihedralScanner], and the rows of
    the final table. *)
Inductive event : Type :=
| Printed (s : pystr)
| EngineEvent (ev : engine_event)
| EngineCreated
| ScanStarted (grid_spacing : list Z)
| Row (gid : grid_id) (e : Energy).

(** A state-and-error monad whose state is the trace of events so far. *)
Definition M (A : Type) : Type := list event -> result A * list event.

Definition ret {A} (a : A) : M A := fun tr => (Ok a, tr).

Definition mbind {A B} (m : M A) (k : A -> M B) : M B :=
  fun tr =>
    match m tr with
    | (Ok a, tr') => k a tr'
    | (Err e, tr') => (Err e, tr')
    end.

Definition emit (ev : event) : M unit := fun tr => (Ok tt, tr ++ [ev]).

Definition lift {A} (r : result A) : M A := fun tr => (r, tr).

(** A call of [create_engine]: its effects are appended to the trace. *)
Definition lift_engine {A} (call : result A * list engine_event) : M A :=
  fun tr => (fst call, tr ++ map EngineEvent (snd call)).

Notation "x <~ m ;; k" := (mbind m (fun x => k))
  (at level 61, m at next level, right associativity).
Notation "m ;;; k" := (mbind m (fun _ => k))
  (at level 61, right associativity).

(** The parsed command line.  [--energy_thresh] and [--verbose] are only
    handed on to [DihedralScanner], whose effect [run_master] stands for,
    and are left out. *)
Record cli_args : Type := mk_cli_args {
  arg_inputfile : pystr;
  arg_dihedralfile : list pystr;
  arg_init_coords : option pystr;
  arg_grid_spacing : list Z;
  arg_engine : pystr;
  arg_constraints : option pystr;
  arg_native_opt : bool;
  arg_wq_port : option Z;
  arg_zero_based_numbering : bool
}.

(** The collaborators of [main] that live outside launch.py, each of which
    may raise: [make_constraints_dict] (qm_engine), [Molecule] (geomeTRIC),
    [WorkQueue] and the engine classes called by [create_engine], and
    [DihedralScanner(engine, ...)] with its [master()], which returns the
    scanner's [grid_energies] as its list of items in insertion order. *)
Variable make_constraints_dict : pystr -> list (list Z) -> result Constraints.
Variable load_molecule : pystr -> result Molecule.
Variable new_work_queue : Z -> result WorkQueue.
Variable new_engine : engine_class -> option pystr -> option WorkQueue -> bool
  -> option Constraints -> result Engine.
Variable run_master : Engine -> list (list Z) -> list (list Z) -> list Z
  -> option Molecule -> result (list (grid_id * Energy)).

(** [grid_energies[grid_id]]. *)
Fixpoint dict_get (k : grid_id) (d : list (grid_id * Energy)) : result Energy :=
  match d with
  | [] => Err KeyError
  | (k', e) :: r => if grid_id_eqb k k' then Ok e else dict_get k r
  end.

Fixpoint print_rows (grid_energies : list (grid_id * Energy)) (ks : list grid_id)
  : M unit :=
  match ks with
  | [] => ret tt
  | k :: r =>
      e <~ lift (dict_get k grid_energies) ;;
      emit (Row k e) ;;;
      print_rows grid_energies r
  end.

(** Lines 156-159. *)
Definition print_table (grid_energies : list (grid_id * Energy)) : M unit :=
  emit (Printed (lit "Dihedral scan is finished!")) ;;;
  emit (Printed (lit " Grid ID                Energy")) ;;;
  print_rows grid_energies (python_sorted (map fst grid_energies)).

(** [main] after [parser.parse_args()]; the printed command line
    [' '.join(sys.argv)] is shown as a placeholder, and [EngineCreated]
    marks the moment [create_engine] has returned. *)
Definition main (args : cli_args) : M unit :=
  emit (Printed (lit "<command line>")) ;;;
  (if arg_zero_based_numbering args
   then emit (Printed (lit "The use of command line --zero_based_numbering is deprecated"))
   else ret tt) ;;;
  loaded <~ lift (load_dihedralfile (arg_dihedralfile args)
                    (arg_zero_based_numbering args)) ;;
  let '(dihedral_idxs, dihedral_ranges) := loaded in
  let grid_dim := length dihedral_idxs in
  constraints_dict <~
    (match arg_constraints args with
     | Some text =>
         cd <~ lift (make_constraints_dict text dihedral_idxs) ;; ret (Some cd)
     | None => ret None
     end) ;;
  grid_spacing <~ lift (format_grid_spacing (arg_grid_spacing args) grid_dim) ;;
  engine <~ lift_engine (create_engine new_work_queue new_engine (arg_engine args)
                           (Some (arg_inputfile args)) (arg_wq_port args)
                           (arg_native_opt args) constraints_dict) ;;
  emit EngineCreated ;;;
  (* [Molecule(args.init_coords) if args.init_coords else None]: the empty
     string is false *)
  init_coords_M <~
    (match arg_init_coords args with
     | Some [] => ret None
     | Some f => m <~ lift (load_molecule f) ;; ret (Some m)
     | None => ret None
     end) ;;
  emit (ScanStarted grid_spacing) ;;;
  grid_energies <~ lift (run_master engine dihedral_idxs dihedral_ranges
                           grid_spacing init_coords_M) ;;
  print_table grid_energies.

(** The grid ids of the table rows in a trace. *)
Fixpoint row_ids (tr : list event) : list grid_id :=
  match tr with
  | [] => []
  | Row k _ :: r => k :: row_ids r
  | _ :: r => row_ids r
  end.

End Main.

Arguments Printed {Energy} s.
Arguments EngineEvent {Energy} ev.
Arguments EngineCreated {Energy}.
Arguments ScanStarted {Energy} grid_spacing.
Arguments Row {Energy} gid e.
Arguments main {Energy Engine WorkQueue Constraints Molecule} make_constraints_dict
  load_molecule new_work_queue new_engine run_master args.
Arguments print_table {Energy} grid_energies.

(** ** Step 4 of [SimpleServer.run_crank_scan] (test_stack_api.py, lines 46-57) *)

(** [d[k].append(v)] on a [collections.defaultdict(list)] kept as the list
    of its items in insertion order: a missing key is added at the end with
    an empty list first. *)
Fixpoint dd_append {V : Type} (k : pystr) (v : V) (d : list (pystr * list V))
  : list (pystr * list V) :=
  match d with
  | [] => [(k, [v])]
  | (k', vs) :: r =>
      if str_eqb k k' then (k', vs ++ [v]) :: r else (k', vs) :: dd_append k v r
  end.

Section SimpleServer.

(** Geometries and energies are passed through without being inspected;
    [Elem] is the type of [self.M.elem]. *)
Variables Geo Energy Elem : Type.

(** [self.dihedrals], each unpacked as [(d1, d2, d3, d4)], and
    [self.M.elem]. *)
Variable dihedrals : list (Z * Z * Z * Z).
Variable elements : Elem.

(** The dictionary built by [make_geomeTRIC_input] (lines 63-94): its
    fields other than the constraints, the geometry and the element
    symbols are constants (schema names and versions, driver ["gradient"],
    method ["MP2"], basis ["cc-pvdz"], coordsys ["tric"], program
    ["psi4"]). *)
Record geometric_input : Type := mk_geometric_input {
  gi_constraints : pystr;
  gi_geometry : Geo;
  gi_symbols : Elem
}.

Definition make_geomeTRIC_input (dihedral_values : list Z) (geometry : Geo)
  : result geometric_input :=
  constraints_string <- make_geomeTRIC_constraints dihedrals dihedral_values ;;
  Ok (mk_geometric_input constraints_string geometry elements).

(** [geometric.run_json.geometric_run_json(d)] followed by the two lookups
    of the final geometry and energy (lines 52-54); may raise. *)
Variable geometric_run_json : geometric_input -> result (Geo * Energy).

(** The inner loop [for job_geo in job_geo_list] (lines 49-57). *)
Fixpoint run_group (grid_id_str : pystr) (job_geo_list : list Geo)
    (job_results : list (pystr * list (Geo * Geo * Energy)))
  : result (list (pystr * list (Geo * Geo * Energy))) :=
  match job_geo_list with
  | [] => Ok job_results
  | job_geo :: rest =>
      dihedral_values <- decode_grid_id grid_id_str ;;
      geometric_input_dict <- make_geomeTRIC_input dihedral_values job_geo ;;
      out <- geometric_run_json geometric_input_dict ;;
      run_group grid_id_str rest
        (dd_append grid_id_str (job_geo, fst out, snd out) job_results)
  end.

(** The outer loop [for grid_id_str, job_geo_list in next_jobs.items()]
    (line 48), [next_jobs] given as its items in order. *)
Fixpoint run_batch (items : list (pystr * list Geo))
    (job_results : list (pystr * list (Geo * Geo * Energy)))
  : result (list (pystr * list (Geo * Geo * Energy))) :=
  match items with
  | [] => Ok job_results
  | (grid_id_str, job_geo_list) :: rest =>
      jr <- run_group grid_id_str job_geo_list job_results ;;
      run_batch rest jr
  end.

(** Lines 47-57, from [job_results = collections.defaultdict(list)]: the
    [job_results] handed to [update_crank_state]. *)
Definition collect_job_results (next_jobs : list (pystr * list Geo))
  : result (list (pystr * list (Geo * Geo * Energy))) :=
  run_batch next_jobs [].

End SimpleServer.

Arguments mk_geometric_input {Geo Elem} gi_constraints gi_geometry gi_symbols.
Arguments make_geomeTRIC_input {Geo Elem} dihedrals elements dihedral_values geometry.
Arguments collect_job_results {Geo Energy Elem} dihedrals elements geometric_run_json next_jobs.
Arguments run_batch {Geo Energy Elem} dihedrals elements geometric_run_json items job_results.
Arguments run_group {Geo Energy Elem} dihedrals elements geometric_run_json
  grid_id_str job_geo_list job_results.

(** * Properties *)

(** ** Decimal printing and parsing *)

Lemma digit_val_char (d : Z) : 0 <= d < 10 -> digit_val (digit_char d) = Some d.
Proof.
  intros Hd. unfold digit_val, digit_char.
  rewrite nat_ascii_embedding by lia.
  replace (Nat.leb 48 (Z.to_nat d + 48) && Nat.leb (Z.to_nat d + 48) 57) with true.
  - f_equal. lia.
  - symmetry. apply andb_true_intro. split; apply Nat.leb_le; lia.
Qed.

(** The characters [str(n)] is made of. *)
Definition num_char (c : ascii) : Prop := digit_val c <> None \/ c = "-"%char.

Lemma to_dec_aux_chars (f : nat) (n : Z) (acc : pystr) :
  0 <= n -> Forall num_char acc -> Forall num_char (to_dec_aux f n acc).
Proof.
  revert n acc. induction f as [|f IH]; intros n acc Hn Hacc; simpl; [exact Hacc|].
  destruct (n <? 10) eqn:E.
  - apply Z.ltb_lt in E. constructor; [left; rewrite digit_val_char by lia; discriminate|exact Hacc].
  - apply Z.ltb_ge in E. apply IH; [apply Z.div_pos; lia|].
    constructor; [left; rewrite digit_val_char by (pose proof (Z.mod_pos_bound n 10); lia); discriminate|exact Hacc].
Qed.

Lemma digits_aux_digit (a k : Z) (r : pystr) :
  0 <= k < 10 -> digits_aux a (digit_char k :: r) = digits_aux (a * 10 + k) r.
Proof. intros Hk. simpl. rewrite digit_val_char by exact Hk. reflexivity. Qed.

(** With enough fuel, the digits [to_dec_aux] prints start with a digit and
    are read back by [digits_aux] as [n]. *)
Lemma to_dec_aux_spec (f : nat) (n : Z) (acc : pystr) :
  0 <= n < 10 ^ Z.of_nat (S f) ->
  exists k r m, to_dec_aux (S f) n acc = digit_char k :: r /\ 0 <= k < 10 /\
    forall a, digits_aux a (to_dec_aux (S f) n acc) = digits_aux (a * 10 ^ Z.of_nat m + n) acc.
Proof.
  revert n acc. induction f as [|f IH]; intros n acc Hn.
  - simpl in Hn. replace (n <? 10) with true in * by (symmetry; apply Z.ltb_lt; lia).
    simpl. replace (n <? 10) with true by (symmetry; apply Z.ltb_lt; lia).
    exists n, acc, 1%nat. split; [reflexivity|split; [lia|]].
    intros a. rewrite digits_aux_digit by lia. reflexivity.
  - destruct (n <? 10) eqn:E.
    + apply Z.ltb_lt in E. exists n, acc, 1%nat.
      assert (Hd : to_dec_aux (S (S f)) n acc = digit_char n :: acc)
        by (simpl; rewrite (proj2 (Z.ltb_lt n 10) E); reflexivity).
      rewrite Hd. split; [reflexivity|split; [lia|]].
      intros a. rewrite digits_aux_digit by lia. reflexivity.
    + apply Z.ltb_ge in E.
      assert (Hstep : to_dec_aux (S (S f)) n acc
                      = to_dec_aux (S f) (n / 10) (digit_char (n mod 10) :: acc)).
      { change (to_dec_aux (S (S f)) n acc) with
          (if n <? 10 then digit_char n :: acc
           else to_dec_aux (S f) (n / 10) (digit_char (n mod 10) :: acc)).
        replace (n <? 10) with false by (symmetry; apply Z.ltb_ge; lia). reflexivity. }
      rewrite Hstep.
      assert (Hq : 0 <= n / 10 < 10 ^ Z.of_nat (S f)).
      { split; [apply Z.div_pos; lia|].
        apply Z.div_lt_upper_bound; [lia|].
        rewrite Nat2Z.inj_succ, Z.pow_succ_r in Hn by lia. lia. }
      destruct (IH (n / 10) (digit_char (n mod 10) :: acc) Hq) as (k & r & m & Hh & Hk & Hp).
      exists k, r, (S m). split; [exact Hh|split; [exact Hk|]].
      intros a. rewrite Hp, digits_aux_digit by (apply Z.mod_pos_bound; lia).
      f_equal. rewrite Nat2Z.inj_succ, Z.pow_succ_r by lia.
      pose proof (Z.div_mod n 10 ltac:(lia)). lia.
Qed.

Lemma nat_fuel_enough (n : Z) : 0 <= n -> n < 10 ^ Z.of_nat (nat_fuel n).
Proof.
  intros Hn. unfold nat_fuel.
  pose proof (Z.log2_nonneg n) as Hl.
  replace (Z.of_nat (S (S (Z.to_nat (Z.log2 n))))) with (Z.log2 n + 2) by lia.
  destruct (Z.eq_dec n 0) as [->|Hnz]; [apply Z.pow_pos_nonneg; lia|].
  destruct (Z.log2_spec n ltac:(lia)) as [_ Hup].
  apply (Z.lt_le_trans _ _ _ Hup).
  apply (Z.le_trans _ (10 ^ Z.succ (Z.log2 n))).
  - apply Z.pow_le_mono_l. lia.
  - apply Z.pow_le_mono_r; lia.
Qed.

Lemma num_char_not_space (c : ascii) : num_char c -> is_space c = false.
Proof.
  intros [H|H]; [|subst; reflexivity].
  unfold digit_val in H. unfold is_space.
  destruct (Nat.leb 48 (nat_of_ascii c) && Nat.leb (nat_of_ascii c) 57) eqn:E; [|congruence].
  apply andb_prop in E as [E1 E2]. apply Nat.leb_le in E1, E2.
  apply orb_false_intro; apply andb_false_iff.
  - right. apply Nat.leb_gt. lia.
  - right. apply Nat.leb_gt. lia.
Qed.

Lemma lstrip_id (s : pystr) : Forall (fun c => is_space c = false) s -> lstrip s = s.
Proof. intros H. destruct s as [|c r]; [reflexivity|]. inversion H; subst. simpl. now rewrite H2. Qed.

Lemma strip_id (s : pystr) : Forall (fun c => is_space c = false) s -> strip s = s.
Proof.
  intros H. unfold strip. rewrite (lstrip_id s H), (lstrip_id (rev s)) by (apply Forall_rev; exact H).
  apply rev_involutive.
Qed.

Lemma str_int_chars (n : Z) : Forall num_char (str_int n).
Proof.
  unfold str_int. destruct (n <? 0) eqn:E.
  - apply Z.ltb_lt in E. constructor; [right; reflexivity|]. apply to_dec_aux_chars; [lia|constructor].
  - apply Z.ltb_ge in E. apply to_dec_aux_chars; [lia|constructor].
Qed.

Lemma str_int_no_space (n : Z) : Forall (fun c => is_space c = false) (str_int n).
Proof. eapply Forall_impl; [apply num_char_not_space|apply str_int_chars]. Qed.

Lemma parse_unsigned_to_dec (n : Z) :
  0 <= n -> exists k r, to_dec_aux (nat_fuel n) n [] = digit_char k :: r /\ 0 <= k < 10
    /\ parse_unsigned (to_dec_aux (nat_fuel n) n []) = Some n.
Proof.
  intros Hn. pose proof (nat_fuel_enough n Hn) as Hf. unfold nat_fuel in *.
  destruct (to_dec_aux_spec (S (Z.to_nat (Z.log2 n))) n [] (conj Hn Hf)) as (k & r & m & Hh & Hk & Hp).
  exists k, r. split; [exact Hh|split; [exact Hk|]].
  rewrite Hh. unfold parse_unsigned. rewrite digit_val_char by exact Hk.
  transitivity (digits_aux 0 (digit_char k :: r)).
  - rewrite digits_aux_digit by exact Hk. f_equal.
  - rewrite <- Hh, Hp. cbn [digits_aux]. f_equal.
Qed.

(** [int(str(n)) == n]. *)
Lemma parse_int_str_int (n : Z) : parse_int (str_int n) = Some n.
Proof.
  unfold parse_int. rewrite strip_id by apply str_int_no_space.
  unfold str_int. destruct (n <? 0) eqn:E.
  - apply Z.ltb_lt in E. destruct (parse_unsigned_to_dec (- n)) as (k & r & _ & _ & Hp); [lia|].
    change (option_map Z.opp (parse_unsigned (to_dec_aux (nat_fuel (- n)) (- n) [])) = Some n).
    rewrite Hp. simpl. f_equal. lia.
  - apply Z.ltb_ge in E. destruct (parse_unsigned_to_dec n E) as (k & r & Hh & Hk & Hp).
    rewrite <- Hp, Hh.
    assert (k = 0 \/ k = 1 \/ k = 2 \/ k = 3 \/ k = 4 \/ k = 5 \/ k = 6 \/ k = 7 \/ k = 8 \/ k = 9)
      as Hcases by lia.
    repeat destruct Hcases as [->|Hcases]; subst; reflexivity.
Qed.

(** ** Splitting and joining *)

Lemma split_sep_aux_last (sep : ascii) (cur x : pystr) :
  ~ In sep x -> split_sep_aux sep cur x = [rev cur ++ x].
Proof.
  revert cur. induction x as [|c r IH]; intros cur Hx; simpl.
  - now rewrite app_nil_r.
  - replace (Ascii.eqb c sep) with false
      by (symmetry; apply Ascii.eqb_neq; intros ->; apply Hx; left; reflexivity).
    rewrite IH by (intros H; apply Hx; right; exact H). simpl. now rewrite <- app_assoc.
Qed.

Lemma split_sep_aux_app (sep : ascii) (cur x y : pystr) :
  ~ In sep x -> split_sep_aux sep cur (x ++ sep :: y) = (rev cur ++ x) :: split_sep_aux sep [] y.
Proof.
  revert cur. induction x as [|c r IH]; intros cur Hx; simpl.
  - rewrite Ascii.eqb_refl, app_nil_r. reflexivity.
  - replace (Ascii.eqb c sep) with false
      by (symmetry; apply Ascii.eqb_neq; intros ->; apply Hx; left; reflexivity).
    rewrite IH by (intros H; apply Hx; right; exact H). simpl. now rewrite <- app_assoc.
Qed.

Lemma num_char_not_in (c : ascii) (n : Z) :
  digit_val c = None -> c <> "-"%char -> ~ In c (str_int n).
Proof.
  intros Hd Hm Hin. pose proof (str_int_chars n) as Hc.
  rewrite Forall_forall in Hc. destruct (Hc c Hin) as [H|H]; contradiction.
Qed.

Lemma comma_not_in_str_int (n : Z) : ~ In ","%char (str_int n).
Proof. apply num_char_not_in; [reflexivity|discriminate]. Qed.

Lemma split_join_str_ints (t : list Z) :
  t <> [] -> split_sep ","%char (join [","%char] (map str_int t)) = map str_int t.
Proof.
  induction t as [|z t IH]; intros Ht; [congruence|].
  destruct t as [|z' t'].
  - simpl. unfold split_sep. rewrite split_sep_aux_last by apply comma_not_in_str_int.
    reflexivity.
  - change (join [","%char] (map str_int (z :: z' :: t')))
      with (str_int z ++ ","%char :: join [","%char] (map str_int (z' :: t'))).
    unfold split_sep. rewrite split_sep_aux_app by apply comma_not_in_str_int.
    unfold split_sep in IH. rewrite IH by discriminate. reflexivity.
Qed.

Lemma parse_ints_str_ints (t : list Z) : parse_ints (map str_int t) = Ok t.
Proof.
  induction t as [|z t IH]; simpl; [reflexivity|].
  rewrite parse_int_str_int, IH. reflexivity.
Qed.

(** ** C7: grid-id strings *)

(** C7 (as amended): for every non-empty grid point, encoding it as the
    comma-joined [str] of its integers and decoding the string with
    [tuple(int(i) for i in s.split(','))] gives the grid point back. *)
Theorem grid_id_roundtrip (t : list Z) :
  t <> [] -> decode_grid_id (encode_grid_id t) = Ok t.
Proof.
  intros Ht. unfold decode_grid_id, encode_grid_id.
  rewrite split_join_str_ints by exact Ht. apply parse_ints_str_ints.
Qed.

(** C7 fails for the empty grid point (a scan of zero dihedrals): it is
    encoded as the empty string, [''.split(',')] is [['']], and [int('')]
    raises [ValueError]. *)
Lemma grid_id_roundtrip_empty :
  decode_grid_id (encode_grid_id []) = Err ValueError.
Proof. reflexivity. Qed.

Lemma grid_id_roundtrip_witness :
  [-165; 0; 30] <> [] /\ decode_grid_id (encode_grid_id [-165; 0; 30]) = Ok [-165; 0; 30].
Proof. split; [discriminate|]. apply grid_id_roundtrip. discriminate. Defined.

Definition no_space (s : pystr) : Prop := Forall (fun c => is_space c = false) s.

Lemma split_ws_aux_app (cur x y : pystr) :
  no_space x -> rev cur ++ x <> [] ->
  split_ws_aux cur (x ++ sp :: y) = (rev cur ++ x) :: split_ws_aux [] y.
Proof.
  revert cur. induction x as [|c r IH]; intros cur Hx Hne; simpl.
  - rewrite app_nil_r in *. destruct cur as [|a cur']; [contradiction|reflexivity].
  - inversion Hx as [|? ? Hc Hr]; subst. rewrite Hc.
    rewrite IH; [simpl; now rewrite <- app_assoc|exact Hr|].
    simpl. rewrite <- app_assoc. destruct (rev cur); discriminate.
Qed.

Lemma split_ws_aux_last (cur x : pystr) :
  no_space x -> rev cur ++ x <> [] -> split_ws_aux cur x = [rev cur ++ x].
Proof.
  revert cur. induction x as [|c r IH]; intros cur Hx Hne; simpl.
  - rewrite app_nil_r in *. destruct cur as [|a cur']; [contradiction|reflexivity].
  - inversion Hx as [|? ? Hc Hr]; subst. rewrite Hc.
    rewrite IH; [simpl; now rewrite <- app_assoc|exact Hr|].
    simpl. rewrite <- app_assoc. destruct (rev cur); discriminate.
Qed.

(** [' '.join(tokens).split() == tokens] when no token is empty or holds
    whitespace. *)
Lemma split_ws_join (toks : list pystr) :
  Forall (fun t => t <> [] /\ no_space t) toks -> split_ws (join [sp] toks) = toks.
Proof.
  unfold split_ws. induction toks as [|t toks IH]; intros H; [reflexivity|].
  inversion H as [|? ? [Hne Hns] Hr]; subst.
  destruct toks as [|t' toks'].
  - simpl. rewrite split_ws_aux_last by exact Hns || exact Hne. reflexivity.
  - change (join [sp] (t :: t' :: toks')) with (t ++ sp :: join [sp] (t' :: toks')).
    rewrite split_ws_aux_app by exact Hns || exact Hne. rewrite IH by exact Hr. reflexivity.
Qed.

Lemma str_int_not_nil (n : Z) : str_int n <> [].
Proof. intros H. pose proof (parse_int_str_int n) as P. rewrite H in P. discriminate. Qed.

Lemma nth_error_combine {A B} (l : list A) (l' : list B) (n : nat) a b :
  nth_error l n = Some a -> nth_error l' n = Some b -> nth_error (combine l l') n = Some (a, b).
Proof.
  revert l' n. induction l as [|x l IH]; intros l' n Ha Hb; [destruct n; discriminate|].
  destruct l' as [|y l']; [destruct n; discriminate|].
  destruct n as [|n]; simpl in *; [congruence|]. apply IH; assumption.
Qed.

(** The text of a constraint line, without its newline, when its angle
    is printed exactly. *)
Definition constraint_text (dv : (Z * Z * Z * Z) * Z) : list pystr :=
  let '((d1, d2, d3, d4), v) := dv in
  [lit "dihedral"; str_int (d1 + 1); str_int (d2 + 1); str_int (d3 + 1);
   str_int (d4 + 1); str_int v ++ lit ".000000"].

Lemma int_to_float_exact (v : Z) : Z.abs v <= 2 ^ 53 -> int_to_float v = Ok v.
Proof. intros H. unfold int_to_float. now rewrite (proj2 (Z.leb_le _ _) H). Qed.

Lemma constraint_line_text (dv : (Z * Z * Z * Z) * Z) :
  Z.abs (snd dv) <= 2 ^ 53 ->
  constraint_line dv = Ok (join [sp] (constraint_text dv) ++ [nl]).
Proof.
  destruct dv as [[[[d1 d2] d3] d4] v]. simpl snd. intros Hv.
  unfold constraint_line, constraint_text, format_f_int.
  rewrite (int_to_float_exact v Hv). cbn [bind join]. rewrite <- !app_assoc. reflexivity.
Qed.

Lemma constraint_lines_text (dvs : list ((Z * Z * Z * Z) * Z)) :
  Forall (fun dv => Z.abs (snd dv) <= 2 ^ 53) dvs ->
  constraint_lines dvs
  = Ok (concat (map (fun b => b ++ [nl]) (map (fun dv => join [sp] (constraint_text dv)) dvs))).
Proof.
  induction dvs as [|dv dvs IH]; intros H; [reflexivity|].
  inversion H as [|? ? Hd Hr]; subst. simpl.
  rewrite (constraint_line_text dv Hd), (IH Hr). reflexivity.
Qed.

Lemma combine_Forall_snd {A} (P : Z -> Prop) (ds : list A) (vs : list Z) :
  Forall P vs -> Forall (fun dv => P (snd dv)) (combine ds vs).
Proof.
  revert vs. induction ds as [|d ds IH]; intros vs H; [constructor|].
  destruct vs as [|v vs]; [constructor|]. inversion H; subst.
  simpl. constructor; [assumption|]. apply IH. assumption.
Qed.

Lemma nl_not_in_str_int (n : Z) : ~ In nl (str_int n).
Proof. apply num_char_not_in; [reflexivity|discriminate]. Qed.

Lemma constraint_text_ok (dv : (Z * Z * Z * Z) * Z) :
  Forall (fun t => t <> [] /\ no_space t /\ ~ In nl t) (constraint_text dv).
Proof.
  destruct dv as [[[[d1 d2] d3] d4] v]. unfold constraint_text.
  assert (Hs : forall n, str_int n <> [] /\ no_space (str_int n) /\ ~ In nl (str_int n))
    by (intros n; repeat split; [apply str_int_not_nil|apply str_int_no_space|apply nl_not_in_str_int]).
  constructor; [|constructor; [apply Hs|constructor; [apply Hs|constructor; [apply Hs|
    constructor; [apply Hs|constructor; [|constructor]]]]]].
  - split; [discriminate|split; [unfold no_space; repeat constructor|]].
    unfold nl. simpl. intros H; repeat destruct H as [H|H]; (discriminate || contradiction).
  - split; [destruct (str_int v); discriminate|split].
    + unfold no_space. apply Forall_app. split; [apply str_int_no_space|repeat constructor].
    + rewrite in_app_iff. intros [H|H]; [exact (nl_not_in_str_int v H)|].
      unfold nl in H. simpl in H. repeat destruct H as [H|H]; (discriminate || contradiction).
Qed.

Lemma join_not_in (c : ascii) (sep : pystr) (toks : list pystr) :
  ~ In c sep -> Forall (fun t => ~ In c t) toks -> ~ In c (join sep toks).
Proof.
  intros Hs. induction toks as [|t toks IH]; intros H; [simpl; tauto|].
  inversion H as [|? ? Ht Hr]; subst. destruct toks as [|t' toks']; [exact Ht|].
  change (join sep (t :: t' :: toks')) with (t ++ sep ++ join sep (t' :: toks')).
  rewrite !in_app_iff. specialize (IH Hr). tauto.
Qed.

Lemma split_nl_lines (bodies : list pystr) :
  Forall (fun b => ~ In nl b) bodies ->
  split_sep_aux nl [] (concat (map (fun b => b ++ [nl]) bodies)) = bodies ++ [[]].
Proof.
  induction bodies as [|b bodies IH]; intros H; [reflexivity|].
  inversion H as [|? ? Hb Hr]; subst. simpl. rewrite <- app_assoc. simpl.
  rewrite split_sep_aux_app by exact Hb. rewrite IH by exact Hr. reflexivity.
Qed.

Lemma constraints_split (ds : list (Z * Z * Z * Z)) (vs : list Z) :
  Forall (fun dv => Z.abs (snd dv) <= 2 ^ 53) (combine ds vs) ->
  exists s, make_geomeTRIC_constraints ds vs = Ok s /\
  split_sep nl s
  = lit "$set" :: map (fun dv => join [sp] (constraint_text dv)) (combine ds vs) ++ [[]].
Proof.
  intros Hb. unfold make_geomeTRIC_constraints. rewrite (constraint_lines_text _ Hb).
  eexists. split; [reflexivity|]. unfold split_sep. cbn [app].
  rewrite split_sep_aux_app
    by (unfold nl; simpl; intros H; repeat destruct H as [H|H]; (discriminate || contradiction)).
  cbn [rev app]. f_equal.
  apply split_nl_lines. apply Forall_forall. intros b Hb'. apply in_map_iff in Hb' as (dv & <- & _).
  apply join_not_in; [unfold nl, sp; simpl; intros [H|H]; (discriminate || contradiction)|].
  eapply Forall_impl; [|apply constraint_text_ok]. simpl. tauto.
Qed.

(** ** C6: the constraint block handed to geomeTRIC *)

(** C6: the constraints of a job are the line [$set] followed by exactly one
    line per scanned dihedral, in order (and the empty text after the final
    newline); the line of dihedral [(i, j, k, l)] with target angle [v]
    splits into the tokens [dihedral], [i+1], [j+1], [k+1], [l+1] in decimal
    and [v] printed by [%f].  The target angles are ints within the range
    where [%f] prints them exactly, and building the block raises nothing. *)
Theorem make_geomeTRIC_constraints_lines (ds : list (Z * Z * Z * Z)) (vs : list Z) :
  length ds = length vs -> Forall (fun v => Z.abs v <= 2 ^ 53) vs ->
  exists s, make_geomeTRIC_constraints ds vs = Ok s /\
  let out := split_sep nl s in
  length out = (length ds + 2)%nat /\
  nth_error out 0 = Some (lit "$set") /\
  nth_error out (S (length ds)) = Some [] /\
  forall n i j k l v, nth_error ds n = Some (i, j, k, l) -> nth_error vs n = Some v ->
    exists line, nth_error out (S n) = Some line /\
      split_ws line = [lit "dihedral"; str_int (i + 1); str_int (j + 1); str_int (k + 1);
                       str_int (l + 1); str_int v ++ lit ".000000"].
Proof.
  intros Hlen Hv.
  destruct (constraints_split ds vs (combine_Forall_snd _ ds vs Hv)) as (s & Hs & Hsplit).
  exists s. split; [exact Hs|]. intros out. unfold out. rewrite Hsplit.
  assert (Hc : length (combine ds vs) = length ds) by (rewrite length_combine; lia).
  repeat split.
  - simpl. rewrite length_app, length_map, Hc. simpl. lia.
  - simpl. rewrite nth_error_app2; rewrite length_map, Hc; [|lia].
    rewrite Nat.sub_diag. reflexivity.
  - intros n i j k l v Hd Hv'. eexists. split.
    + simpl. rewrite nth_error_app1.
      * rewrite nth_error_map, (nth_error_combine ds vs n _ _ Hd Hv'). reflexivity.
      * rewrite length_map, Hc. apply nth_error_Some. congruence.
    + rewrite split_ws_join; [reflexivity|].
      eapply Forall_impl; [|apply constraint_text_ok]. simpl. tauto.
Qed.

Lemma make_geomeTRIC_constraints_lines_witness :
  length [(0, 1, 2, 3)] = length [-30] /\ Forall (fun v => Z.abs v <= 2 ^ 53) [-30] /\
  exists s, make_geomeTRIC_constraints [(0, 1, 2, 3)] [-30] = Ok s /\
  length (split_sep nl s) = 3%nat.
Proof.
  assert (Hv : Forall (fun v => Z.abs v <= 2 ^ 53) [-30])
    by (repeat constructor; vm_compute; discriminate).
  split; [reflexivity|split; [exact Hv|]].
  destruct (make_geomeTRIC_constraints_lines [(0, 1, 2, 3)] [-30] eq_refl Hv) as (s & Hs & Hl & _).
  exists s. split; [exact Hs|exact Hl].
Defined.

(** ** The reading loop of [load_dihedralfile] *)

Lemma str_eqb_eq (a b : pystr) : str_eqb a b = true <-> a = b.
Proof.
  revert b. induction a as [|x a IH]; intros [|y b]; simpl; split; intros H;
    try discriminate; try reflexivity.
  - apply andb_prop in H as [H1 H2]. apply Ascii.eqb_eq in H1. apply IH in H2. congruence.
  - injection H as -> ->. rewrite Ascii.eqb_refl. simpl. apply IH. reflexivity.
Qed.

(** The test of lines 64-68: is [line] the comment [#name] (case and
    surrounding whitespace ignored)? *)
Definition is_directive (name : string) (line : pystr) : bool :=
  match comment_of (strip line) with
  | Some comment => str_eqb comment (lit name)
  | None => false
  end.

Lemma read_lines_app (st : read_state) (a b : list pystr) :
  read_lines st (a ++ b) = (st' <- read_lines st a ;; read_lines st' b).
Proof.
  revert st. induction a as [|l a IH]; intros st; simpl; [reflexivity|].
  destruct (read_line st l) as [st'|e]; simpl; [apply IH|reflexivity].
Qed.

Lemma read_line_zero (st : read_state) (l : pystr) :
  is_directive "zero_based_numbering" l = true ->
  read_line st l = Ok (mk_read_state true (dihedral_idxs st) (dihedral_ranges st)).
Proof.
  unfold is_directive, read_line. intros H.
  destruct (strip l) as [|c r]; [discriminate|].
  destruct (comment_of (c :: r)) as [cm|]; [|discriminate]. now rewrite H.
Qed.

Lemma read_line_one (st : read_state) (l : pystr) :
  is_directive "one_based_numbering" l = true ->
  read_line st l = if zero_based st then Err ValueError else Ok st.
Proof.
  unfold is_directive, read_line. intros H.
  destruct (strip l) as [|c r]; [discriminate|].
  destruct (comment_of (c :: r)) as [cm|]; [|discriminate].
  apply str_eqb_eq in H as ->. reflexivity.
Qed.

Ltac split_matches :=
  repeat match goal with
  | H : context [match ?x with _ => _ end] |- _ => destruct x eqn:?
  | |- context [match ?x with _ => _ end] => destruct x eqn:?
  end.

(** How one line moves the flag: it becomes [true] on [#zero_based_numbering]
    and never goes back. *)
Lemma read_line_flag (st st' : read_state) (l : pystr) :
  read_line st l = Ok st' ->
  zero_based st' = zero_based st || is_directive "zero_based_numbering" l.
Proof.
  unfold read_line, is_directive, bind. intros H.
  destruct (strip l) as [|c r]; [injection H as <-; now rewrite orb_false_r|].
  destruct (comment_of (c :: r)) as [cm|].
  - destruct (str_eqb cm (lit "zero_based_numbering")).
    + injection H as <-. simpl. now rewrite orb_true_r.
    + rewrite orb_false_r. destruct (str_eqb cm (lit "one_based_numbering"));
        [destruct (zero_based st) eqn:?|]; congruence.
  - rewrite orb_false_r. split_matches; try discriminate; injection H as <-; reflexivity.
Qed.

Lemma read_lines_flag (st st' : read_state) (L : list pystr) :
  read_lines st L = Ok st' ->
  zero_based st' = zero_based st || existsb (is_directive "zero_based_numbering") L.
Proof.
  revert st. induction L as [|l L IH]; intros st H; simpl in *.
  - injection H as <-. now rewrite orb_false_r.
  - destruct (read_line st l) as [s|e] eqn:E; [|discriminate].
    rewrite (IH s H), (read_line_flag st s l E). now rewrite orb_assoc.
Qed.

(** Reading with the flag already set succeeds only where reading with any
    flag succeeds, and collects the same dihedrals and ranges. *)
Lemma read_line_from_true (a b : list (list Z)) (l : pystr) (st' : read_state) (g : bool) :
  read_line (mk_read_state true a b) l = Ok st' ->
  exists g', read_line (mk_read_state g a b) l
             = Ok (mk_read_state g' (dihedral_idxs st') (dihedral_ranges st')).
Proof.
  unfold read_line, bind. intros H.
  destruct (strip l) as [|c r]; [injection H as <-; now exists g|].
  destruct (comment_of (c :: r)) as [cm|].
  - destruct (str_eqb cm (lit "zero_based_numbering")).
    + injection H as <-. now exists true.
    + destruct (str_eqb cm (lit "one_based_numbering")); [discriminate|].
      injection H as <-. now exists g.
  - split_matches; try discriminate; injection H as <-; now exists g.
Qed.

Lemma read_lines_from_true (a b : list (list Z)) (L : list pystr) (st' : read_state) (g : bool) :
  read_lines (mk_read_state true a b) L = Ok st' ->
  exists g', read_lines (mk_read_state g a b) L
             = Ok (mk_read_state g' (dihedral_idxs st') (dihedral_ranges st')).
Proof.
  revert a b g. induction L as [|l L IH]; intros a b g H; simpl in *.
  - injection H as <-. now exists g.
  - destruct (read_line (mk_read_state true a b) l) as [s|e] eqn:E; [|discriminate]. simpl in H.
    destruct (read_line_from_true a b l s g E) as [g0 Hg0]. rewrite Hg0. simpl.
    pose proof (read_line_flag _ _ _ E) as Hf. simpl in Hf.
    destruct s as [f a' b']. simpl in *. subst f. apply IH. exact H.
Qed.

(** ** C10: [#one_based_numbering] *)

(** C10: when the reading loop reaches a [#one_based_numbering] comment,
    the zero-based flag is set exactly when the parameter was [True] or an
    earlier line was [#zero_based_numbering]; then [load_dihedralfile]
    raises [ValueError], and otherwise the comment changes nothing: the
    result is the one of the file without it. *)
Theorem one_based_directive (pre post : list pystr) (l : pystr) (z : bool)
    (st : read_state) :
  is_directive "one_based_numbering" l = true ->
  read_lines (mk_read_state z [] []) pre = Ok st ->
  (zero_based st = true <->
     z = true \/ existsb (is_directive "zero_based_numbering") pre = true) /\
  (zero_based st = true -> load_dihedralfile (pre ++ l :: post) z = Err ValueError) /\
  (zero_based st = false ->
     load_dihedralfile (pre ++ l :: post) z = load_dihedralfile (pre ++ post) z).
Proof.
  intros Hl Hpre. pose proof (read_lines_flag _ _ _ Hpre) as Hf. simpl in Hf.
  split; [rewrite Hf; apply orb_true_iff|].
  unfold load_dihedralfile. rewrite !read_lines_app, Hpre. cbn [bind read_lines].
  rewrite read_line_one by exact Hl.
  split; intros Hz; rewrite Hz; reflexivity.
Qed.

Lemma one_based_directive_witness :
  is_directive "one_based_numbering" (lit "# one_based_numbering") = true /\
  read_lines (mk_read_state false [] []) [lit "#zero_based_numbering"]
  = Ok (mk_read_state true [] []) /\
  load_dihedralfile ([lit "#zero_based_numbering"] ++ lit "# one_based_numbering" :: [])
    false = Err ValueError.
Proof.
  assert (Hl : is_directive "one_based_numbering" (lit "# one_based_numbering") = true)
    by reflexivity.
  assert (Hr : read_lines (mk_read_state false [] []) [lit "#zero_based_numbering"]
               = Ok (mk_read_state true [] [])) by reflexivity.
  split; [exact Hl|split; [exact Hr|]].
  exact (proj1 (proj2 (one_based_directive _ [] _ false _ Hl Hr)) eq_refl).
Defined.

(** ** C3: one-based numbering by default *)

(** The atom indices written on a line of the file: the first four integers
    of a non-empty line that is not a comment. *)
Definition written_line (line : pystr) : list (list Z) :=
  let t := strip line in
  match t with
  | [] => []
  | _ =>
    match comment_of t with
    | Some _ => []
    | None =>
        match parse_ints (firstn 4 (split_ws t)) with
        | Ok d => [d]
        | Err _ => []
        end
    end
  end.

Definition written_indices (lines : list pystr) : list (list Z) :=
  flat_map written_line lines.

Lemma read_line_idxs (st st' : read_state) (l : pystr) :
  read_line st l = Ok st' ->
  dihedral_idxs st' = dihedral_idxs st ++ map (map (fun i => i - 1)) (written_line l).
Proof.
  unfold read_line, written_line, bind. intros H.
  destruct (strip l) as [|c r]; [injection H as <-; now rewrite app_nil_r|].
  destruct (comment_of (c :: r)) as [cm|].
  - rewrite app_nil_r.
    destruct (str_eqb cm (lit "zero_based_numbering")); [injection H as <-; reflexivity|].
    destruct (str_eqb cm (lit "one_based_numbering"));
      [destruct (zero_based st)|]; congruence.
  - set (ls := split_ws (c :: r)) in *.
    destruct (Nat.eqb (length ls) 4) eqn:E4.
    + apply Nat.eqb_eq in E4. rewrite firstn_all2 by lia.
      destruct (parse_ints ls) as [d|e]; [|discriminate]. injection H as <-. reflexivity.
    + destruct (Nat.eqb (length ls) 6); [|discriminate].
      destruct (parse_ints (firstn 4 ls)) as [d|e]; [|discriminate].
      destruct (parse_ints (skipn 4 ls)) as [rg|e]; [|discriminate].
      injection H as <-. reflexivity.
Qed.

Lemma read_lines_idxs (st st' : read_state) (L : list pystr) :
  read_lines st L = Ok st' ->
  dihedral_idxs st' = dihedral_idxs st ++ map (map (fun i => i - 1)) (written_indices L).
Proof.
  revert st. induction L as [|l L IH]; intros st H; simpl in *.
  - injection H as <-. now rewrite app_nil_r.
  - destruct (read_line st l) as [s|e] eqn:E; [|discriminate].
    rewrite (IH s H), (read_line_idxs st s l E), map_app. symmetry. apply app_assoc.
Qed.

(** C3: with [zero_based_numbering=False] and no [#zero_based_numbering]
    comment, the dihedrals [load_dihedralfile] returns are the atom
    indices written in the file, each decremented by 1, in file order. *)
Theorem one_based_default (lines : list pystr) (idxs rngs : list (list Z)) :
  existsb (is_directive "zero_based_numbering") lines = false ->
  load_dihedralfile lines false = Ok (idxs, rngs) ->
  idxs = map (map (fun i => i - 1)) (written_indices lines).
Proof.
  intros Hd H. unfold load_dihedralfile in H.
  destruct (read_lines (mk_read_state false [] []) lines) as [st|e] eqn:E; [|discriminate].
  cbn [bind] in H. pose proof (read_lines_flag _ _ _ E) as Hf. rewrite Hd in Hf.
  pose proof (read_lines_idxs _ _ _ E) as Hi. simpl in Hf, Hi.
  unfold finish in H. rewrite Hf in H.
  destruct (forallb _ _); [|discriminate].
  destruct (dihedral_ranges st); [|discriminate]. injection H as <- _. exact Hi.
Qed.

Lemma one_based_default_witness :
  existsb (is_directive "zero_based_numbering") [lit "# i j k l"; lit "1 2 3 4"; lit "2 3 4 5"]
  = false /\
  load_dihedralfile [lit "# i j k l"; lit "1 2 3 4"; lit "2 3 4 5"] false
  = Ok ([[0; 1; 2; 3]; [1; 2; 3; 4]], []) /\
  [[0; 1; 2; 3]; [1; 2; 3; 4]]
  = map (map (fun i => i - 1)) (written_indices [lit "# i j k l"; lit "1 2 3 4"; lit "2 3 4 5"]).
Proof.
  assert (Hd : existsb (is_directive "zero_based_numbering")
                 [lit "# i j k l"; lit "1 2 3 4"; lit "2 3 4 5"] = false) by reflexivity.
  assert (Hl : load_dihedralfile [lit "# i j k l"; lit "1 2 3 4"; lit "2 3 4 5"] false
               = Ok ([[0; 1; 2; 3]; [1; 2; 3; 4]], [])) by reflexivity.
  split; [exact Hd|split; [exact Hl|]].
  exact (one_based_default _ _ _ Hd Hl).
Defined.

(** ** C4: which lines the reading loop accepts *)

Lemma parse_ints_ok (xs : list pystr) :
  Forall (fun tok => parse_int tok <> None) xs -> exists vs, parse_ints xs = Ok vs.
Proof.
  induction xs as [|x xs IH]; intros H; simpl; [now exists []|].
  inversion H as [|? ? Hx Hr]; subst.
  destruct (parse_int x) as [v|]; [|contradiction].
  destruct (IH Hr) as [vs ->]. now exists (v :: vs).
Qed.

Lemma Forall_firstn_skipn {A} (P : A -> Prop) (n : nat) (l : list A) :
  Forall P l -> Forall P (firstn n l) /\ Forall P (skipn n l).
Proof. intros H. rewrite <- (firstn_skipn n l) in H. now apply Forall_app in H. Qed.

(** C4 (as amended): the reading step of [load_dihedralfile] raises
    [ValueError] on a non-empty line that is not a comment and has neither
    4 nor 6 fields, so the call fails on any file with such a line; it
    accepts an empty line, a line of 4 or 6 integer fields, and a comment
    line, except a [#one_based_numbering] comment read while zero-based
    numbering is on. *)
Theorem read_line_acceptance :
  (forall st line, strip line <> [] -> comment_of (strip line) = None ->
     length (split_ws (strip line)) <> 4%nat -> length (split_ws (strip line)) <> 6%nat ->
     read_line st line = Err ValueError) /\
  (forall pre line post z, strip line <> [] -> comment_of (strip line) = None ->
     length (split_ws (strip line)) <> 4%nat -> length (split_ws (strip line)) <> 6%nat ->
     is_err (load_dihedralfile (pre ++ line :: post) z) = true) /\
  (forall st line, strip line = [] -> read_line st line = Ok st) /\
  (forall st line c, comment_of (strip line) = Some c ->
     (zero_based st = true -> is_directive "one_based_numbering" line = false) ->
     exists st', read_line st line = Ok st') /\
  (forall st line, comment_of (strip line) = None ->
     (length (split_ws (strip line)) = 4%nat \/ length (split_ws (strip line)) = 6%nat) ->
     Forall (fun tok => parse_int tok <> None) (split_ws (strip line)) ->
     exists st', read_line st line = Ok st') /\
  (forall st line, is_directive "one_based_numbering" line = true -> zero_based st = true ->
     read_line st line = Err ValueError) /\
  (forall pre line post z st, read_lines (mk_read_state z [] []) pre = Ok st ->
     zero_based st = true -> is_directive "one_based_numbering" line = true ->
     load_dihedralfile (pre ++ line :: post) z = Err ValueError).
Proof.
  assert (Hbad : forall st line, strip line <> [] -> comment_of (strip line) = None ->
     length (split_ws (strip line)) <> 4%nat -> length (split_ws (strip line)) <> 6%nat ->
     read_line st line = Err ValueError).
  { intros st line Hne Hc H4 H6. unfold read_line.
    destruct (strip line) as [|c r]; [contradiction|]. rewrite Hc.
    apply Nat.eqb_neq in H4, H6. now rewrite H4, H6. }
  assert (Hone : forall st line, is_directive "one_based_numbering" line = true ->
     zero_based st = true -> read_line st line = Err ValueError).
  { intros st line Hd Hz. rewrite (read_line_one st line Hd), Hz. reflexivity. }
  split; [exact Hbad|split; [|split; [|split; [|split; [|split; [exact Hone|]]]]]].
  - intros pre line post z Hne Hc H4 H6. unfold load_dihedralfile.
    rewrite read_lines_app.
    destruct (read_lines _ pre) as [s|e]; [|reflexivity]. cbn [bind read_lines].
    rewrite (Hbad s line Hne Hc H4 H6). reflexivity.
  - intros st line H. unfold read_line. now rewrite H.
  - intros st line c Hc Hguard. clear Hone. unfold read_line, is_directive in *.
    rewrite Hc in Hguard. destruct (strip line) as [|a r]; [discriminate|]. rewrite Hc.
    destruct (str_eqb c (lit "zero_based_numbering")); [eexists; reflexivity|].
    destruct (str_eqb c (lit "one_based_numbering")); [|eexists; reflexivity].
    destruct (zero_based st); [specialize (Hguard eq_refl); discriminate|eexists; reflexivity].
  - intros st line Hc Hlen Hints. unfold read_line.
    destruct (strip line) as [|a r]; [simpl in Hlen; lia|]. rewrite Hc.
    set (ls := split_ws (a :: r)) in *.
    destruct (Forall_firstn_skipn _ 4 ls Hints) as [Hf Hs].
    destruct (Nat.eqb (length ls) 4) eqn:E4.
    + destruct (parse_ints_ok ls Hints) as [d ->]. eexists; reflexivity.
    + apply Nat.eqb_neq in E4. destruct Hlen as [H4|H6]; [contradiction|].
      rewrite H6. cbn [Nat.eqb].
      destruct (parse_ints_ok _ Hf) as [d ->]. destruct (parse_ints_ok _ Hs) as [rg ->].
      eexists; reflexivity.
  - intros pre line post z st Hpre Hz Hd. unfold load_dihedralfile.
    rewrite read_lines_app, Hpre. cbn [bind read_lines]. rewrite (Hone st line Hd Hz). reflexivity.
Qed.

Lemma read_line_acceptance_witness :
  read_line (mk_read_state false [] []) (lit "1 2 3") = Err ValueError /\
  (exists st', read_line (mk_read_state false [] []) (lit " 1 2 3 4 -90 150") = Ok st') /\
  load_dihedralfile [lit "#zero_based_numbering"; lit "1 2 3 4"; lit " # ONE_based_numbering"] false
  = Err ValueError.
Proof.
  destruct read_line_acceptance as (Hbad & _ & _ & _ & Hgood & _ & Hload).
  split; [|split].
  3:{ apply (Hload [lit "#zero_based_numbering"; lit "1 2 3 4"] (lit " # ONE_based_numbering") []
               false (mk_read_state true [[0; 1; 2; 3]] [])); reflexivity. }
  - apply (Hbad (mk_read_state false [] []) (lit "1 2 3")); vm_compute; (reflexivity || discriminate).
  - apply (Hgood (mk_read_state false [] []) (lit " 1 2 3 4 -90 150")); [reflexivity|right; reflexivity|].
    vm_compute. repeat constructor; discriminate.
Defined.

(** C4 as stated fails: a line starting with [#] can make the call raise
    (the [#one_based_numbering] guard), and so can a line of four integers
    (the check that every index is [>= 0]). *)
Lemma read_line_acceptance_counterexample :
  load_dihedralfile [lit "#one_based_numbering"] true = Err ValueError /\
  load_dihedralfile [lit "0 1 2 3"] false = Err AssertionError.
Proof. split; reflexivity. Qed.

(** ** C1 and C2: the conversions and checks after the loop *)

(** The zero-based conversion [i+i] of line 82 doubles the decremented
    indices: the file of the docstring, read with zero-based numbering,
    gives [[0,2,4,6], [2,4,6,8]] instead of the documented
    [[1,2,3,4], [2,3,4,5]], and a zero-based index 0 fails the assertion. *)
Theorem zero_based_conversion_example :
  load_dihedralfile [lit "1 2 3 4"; lit "2 3 4 5"] true
  = Ok ([[0; 2; 4; 6]; [2; 4; 6; 8]], []) /\
  load_dihedralfile [lit "#zero_based_numbering"; lit "# i     j     k     j";
                     lit "  1     2     3     4"; lit "  2     3     4     5"] false
  = Ok ([[0; 2; 4; 6]; [2; 4; 6; 8]], []) /\
  load_dihedralfile [lit "0 1 2 3"] true = Err AssertionError.
Proof. repeat split; reflexivity. Qed.

(** The range check of line 86 raises [NameError] on every file with a
    range: the docstring's own example file is refused. *)
Theorem dihedral_range_example :
  load_dihedralfile [lit "# dihedral definition by atom indices starting from 1";
                     lit "# i     j     k     j   (range_low)   (range_high)";
                     lit "  1     2     3     4     -120            120";
                     lit "  2     3     4     5      -90            150"] false
  = Err NameError /\
  load_dihedralfile [lit "1 2 3 4 -180 180"] false = Err NameError.
Proof. split; reflexivity. Qed.

(** ** [main] step by step *)


(** ** [sorted] on grid ids *)

(** The lexicographic order on integer tuples, as the spec states it. *)
Inductive lex_le : grid_id -> grid_id -> Prop :=
| lex_le_nil (y : grid_id) : lex_le [] y
| lex_le_lt (a b : Z) (x y : grid_id) : a < b -> lex_le (a :: x) (b :: y)
| lex_le_cons (a : Z) (x y : grid_id) : lex_le x y -> lex_le (a :: x) (a :: y).

Lemma py_tuple_lt_le (x y : grid_id) : py_tuple_lt x y = true -> lex_le x y.
Proof.
  revert y. induction x as [|a x IH]; intros [|b y] H; simpl in H; try discriminate;
    try apply lex_le_nil.
  destruct (a =? b) eqn:E.
  - apply Z.eqb_eq in E. subst b. apply lex_le_cons. apply IH. exact H.
  - apply Z.ltb_lt in H. apply lex_le_lt. exact H.
Qed.

Lemma py_tuple_not_lt_le (x y : grid_id) : py_tuple_lt x y = false -> lex_le y x.
Proof.
  revert y. induction x as [|a x IH]; intros [|b y] H; simpl in H; try discriminate;
    try apply lex_le_nil.
  destruct (a =? b) eqn:E.
  - apply Z.eqb_eq in E. subst b. apply lex_le_cons. apply IH. exact H.
  - apply Z.eqb_neq in E. apply Z.ltb_ge in H. apply lex_le_lt. lia.
Qed.

Lemma sorted_insert_perm (x : grid_id) (l : list grid_id) :
  Permutation (sorted_insert x l) (x :: l).
Proof.
  induction l as [|y l IH]; simpl; [reflexivity|].
  destruct (py_tuple_lt x y); [reflexivity|].
  rewrite IH. apply perm_swap.
Qed.

Lemma sorted_insert_hd (a x : grid_id) (l : list grid_id) :
  HdRel lex_le a l -> lex_le a x -> HdRel lex_le a (sorted_insert x l).
Proof.
  intros Hl Hx. destruct l as [|y l]; simpl; [constructor; exact Hx|].
  destruct (py_tuple_lt x y); constructor; [exact Hx|]. inversion Hl; assumption.
Qed.

Lemma sorted_insert_sorted (x : grid_id) (l : list grid_id) :
  Sorted lex_le l -> Sorted lex_le (sorted_insert x l).
Proof.
  induction l as [|y l IH]; intros H; simpl; [repeat constructor|].
  destruct (py_tuple_lt x y) eqn:E.
  - constructor; [exact H|]. constructor. apply py_tuple_lt_le. exact E.
  - apply Sorted_inv in H as [Hs Hh]. constructor; [apply IH; exact Hs|].
    apply sorted_insert_hd; [exact Hh|]. apply py_tuple_not_lt_le. exact E.
Qed.

Lemma python_sorted_spec (l : list grid_id) :
  Sorted lex_le (python_sorted l) /\ Permutation (python_sorted l) l.
Proof.
  unfold python_sorted.
  assert (H : forall acc, Sorted lex_le acc ->
            Sorted lex_le (fold_left (fun acc x => sorted_insert x acc) l acc) /\
            Permutation (fold_left (fun acc x => sorted_insert x acc) l acc) (acc ++ l)).
  { induction l as [|x l IH]; intros acc Hacc; simpl; [now rewrite app_nil_r|].
    destruct (IH (sorted_insert x acc) (sorted_insert_sorted x acc Hacc)) as [Hs Hp].
    split; [exact Hs|]. rewrite Hp, sorted_insert_perm. apply Permutation_middle. }
  exact (H [] (Sorted_nil _)).
Qed.

(** ** The final table *)

Lemma grid_id_eqb_refl (k : grid_id) : grid_id_eqb k k = true.
Proof. induction k as [|a k IH]; simpl; [reflexivity|]. now rewrite Z.eqb_refl, IH. Qed.

Lemma row_ids_app {Energy} (a b : list (event Energy)) :
  row_ids Energy (a ++ b) = row_ids Energy a ++ row_ids Energy b.
Proof. induction a as [|[] a IH]; simpl; try rewrite IH; reflexivity. Qed.

Lemma dict_get_in {Energy} (ge : list (grid_id * Energy)) (k : grid_id) :
  In k (map fst ge) -> exists e, dict_get Energy k ge = Ok e.
Proof.
  induction ge as [|[k' e'] ge IH]; intros H; [contradiction|].
  simpl in *. destruct (grid_id_eqb k k') eqn:E; [now exists e'|].
  destruct H as [->|H]; [rewrite grid_id_eqb_refl in E; discriminate|]. apply IH. exact H.
Qed.

Lemma print_rows_spec {Energy} (ge : list (grid_id * Energy)) (ks : list grid_id)
    (tr : list (event Energy)) :
  (forall k, In k ks -> In k (map fst ge)) ->
  exists rows, print_rows Energy ge ks tr = (Ok tt, tr ++ rows) /\ row_ids Energy rows = ks.
Proof.
  revert tr. induction ks as [|k ks IH]; intros tr H; simpl.
  - exists []. now rewrite app_nil_r.
  - destruct (dict_get_in ge k (H k (or_introl eq_refl))) as [e He].
    unfold mbind, lift, emit. rewrite He.
    destruct (IH (tr ++ [Row k e]) (fun k' Hk => H k' (or_intror Hk))) as (rows & Hr & Hi).
    rewrite Hr. exists (Row k e :: rows). rewrite <- app_assoc. simpl. now rewrite Hi.
Qed.

Lemma print_table_spec {Energy} (ge : list (grid_id * Energy)) (tr : list (event Energy)) :
  exists added, print_table ge tr = (Ok tt, tr ++ added) /\
    row_ids Energy added = python_sorted (map fst ge).
Proof.
  destruct (python_sorted_spec (map fst ge)) as [_ Hp].
  destruct (print_rows_spec ge (python_sorted (map fst ge))
              (tr ++ [Printed (lit "Dihedral scan is finished!")]
                  ++ [Printed (lit " Grid ID                Energy")]))
    as (rows & Hr & Hi).
  { intros k Hk. eapply Permutation_in; [exact Hp|exact Hk]. }
  exists ([Printed (lit "Dihedral scan is finished!");
           Printed (lit " Grid ID                Energy")] ++ rows).
  unfold print_table, mbind, emit. rewrite <- app_assoc. rewrite Hr.
  split; [now rewrite <- !app_assoc|]. exact Hi.
Qed.

(** The events [print_table] adds: printed lines, and rows whose energy is
    the one [grid_energies] holds for the grid id. *)
Definition table_event {Energy} (ge : list (grid_id * Energy)) (ev : event Energy) : Prop :=
  match ev with
  | Printed _ => True
  | Row k e => In (k, e) ge
  | _ => False
  end.

Lemma grid_id_eqb_true (x y : grid_id) : grid_id_eqb x y = true -> x = y.
Proof.
  revert y. induction x as [|a x IH]; intros [|b y] E; simpl in E; try discriminate;
    [reflexivity|].
  apply andb_prop in E as [E1 E2]. apply Z.eqb_eq in E1. subst b. f_equal. now apply IH.
Qed.

Lemma dict_get_sound {Energy} (ge : list (grid_id * Energy)) (k : grid_id) (e : Energy) :
  dict_get Energy k ge = Ok e -> In (k, e) ge.
Proof.
  induction ge as [|[k' e'] ge IH]; simpl; [discriminate|].
  destruct (grid_id_eqb k k') eqn:E.
  - intros H. injection H as <-. left.
    now rewrite (grid_id_eqb_true k k' E).
  - intros H. right. now apply IH.
Qed.

Lemma print_rows_events {Energy} (ge : list (grid_id * Energy)) (ks : list grid_id)
    (tr tr' : list (event Energy)) (r : result unit) :
  print_rows Energy ge ks tr = (r, tr') ->
  exists added, tr' = tr ++ added /\ Forall (table_event ge) added.
Proof.
  revert tr. induction ks as [|k ks IH]; intros tr H; simpl in H.
  - unfold ret in H. injection H as _ <-. exists []. now rewrite app_nil_r.
  - unfold mbind, lift, emit in H.
    destruct (dict_get Energy k ge) as [e|err] eqn:Eg.
    + destruct (IH _ H) as (added & -> & Ha). exists (Row k e :: added).
      rewrite <- app_assoc. split; [reflexivity|].
      constructor; [exact (dict_get_sound ge k e Eg)|exact Ha].
    + injection H as _ <-. exists []. now rewrite app_nil_r.
Qed.

Lemma print_table_events {Energy} (ge : list (grid_id * Energy)) (tr : list (event Energy)) :
  exists added, print_table ge tr = (Ok tt, tr ++ added) /\ Forall (table_event ge) added.
Proof.
  destruct (print_table_spec ge tr) as (added & Ht & _).
  exists added. split; [exact Ht|].
  unfold print_table, mbind, emit in Ht.
  destruct (print_rows_events ge (python_sorted (map fst ge))
              ((tr ++ [Printed (lit "Dihedral scan is finished!")])
                 ++ [Printed (lit " Grid ID                Energy")]) _ _ Ht)
    as (rows & Hr & Hrows).
  rewrite <- !app_assoc in Hr. apply app_inv_head in Hr. rewrite Hr.
  repeat constructor. exact Hrows.
Qed.

Definition main_prefix (Energy : Type) (args : cli_args) : list (event Energy) :=
  [Printed (lit "<command line>")]
  ++ (if arg_zero_based_numbering args
      then [Printed (lit "The use of command line --zero_based_numbering is deprecated")]
      else []).

Section MainProofs.

Context {Energy Engine WorkQueue Constraints Molecule : Type}.
Variable make_constraints_dict : pystr -> list (list Z) -> result Constraints.
Variable load_molecule : pystr -> result Molecule.
Variable new_work_queue : Z -> result WorkQueue.
Variable new_engine : engine_class -> option pystr -> option WorkQueue -> bool
  -> option Constraints -> result Engine.
Variable run_master : Engine -> list (list Z) -> list (list Z) -> list Z
  -> option Molecule -> result (list (grid_id * Energy)).

(** The value of [constraints_dict] (lines 130-133). *)
Definition constraints_step (args : cli_args) (idxs : list (list Z))
  : result (option Constraints) :=
  match arg_constraints args with
  | Some text => cd <- make_constraints_dict text idxs ;; Ok (Some cd)
  | None => Ok None
  end.

(** The call of [create_engine] on line 145. *)
Definition engine_step (args : cli_args) (cd : option Constraints)
  : result Engine * list engine_event :=
  create_engine new_work_queue new_engine (arg_engine args) (Some (arg_inputfile args))
    (arg_wq_port args) (arg_native_opt args) cd.

(** The events of that call in [main]'s trace. *)
Definition engine_events (args : cli_args) (cd : option Constraints) : list (event Energy) :=
  map EngineEvent (snd (engine_step args cd)).

(** The value of [init_coords_M] (line 148). *)
Definition init_coords_step (args : cli_args) : result (option Molecule) :=
  match arg_init_coords args with
  | Some [] => Ok None
  | Some f => m <- load_molecule f ;; Ok (Some m)
  | None => Ok None
  end.

(** [main] as the sequence of its fallible steps and the events between
    them. *)
Lemma main_steps (args : cli_args) :
  main make_constraints_dict load_molecule new_work_queue new_engine run_master args []
  = match load_dihedralfile (arg_dihedralfile args) (arg_zero_based_numbering args) with
    | Err e => (Err e, main_prefix Energy args)
    | Ok (idxs, rngs) =>
      match constraints_step args idxs with
      | Err e => (Err e, main_prefix Energy args)
      | Ok cd =>
        match format_grid_spacing (arg_grid_spacing args) (length idxs) with
        | Err e => (Err e, main_prefix Energy args)
        | Ok gs =>
          match fst (engine_step args cd) with
          | Err e => (Err e, main_prefix Energy args ++ engine_events args cd)
          | Ok eng =>
            match init_coords_step args with
            | Err e => (Err e, main_prefix Energy args ++ engine_events args cd ++ [EngineCreated])
            | Ok m =>
              match run_master eng idxs rngs gs m with
              | Err e => (Err e, main_prefix Energy args ++ engine_events args cd
                                   ++ [EngineCreated; ScanStarted gs])
              | Ok ge => print_table ge (main_prefix Energy args ++ engine_events args cd
                                           ++ [EngineCreated; ScanStarted gs])
              end
            end
          end
        end
      end
    end.
Proof.
  unfold main, main_prefix, constraints_step, init_coords_step, engine_events, engine_step,
    mbind, emit, lift, lift_engine, ret.
  destruct (arg_zero_based_numbering args);
  destruct (load_dihedralfile _ _) as [[idxs rngs]|e]; try reflexivity;
  destruct (arg_constraints args) as [text|];
  try destruct (make_constraints_dict text idxs) as [cd|e]; cbn [bind]; try reflexivity;
  destruct (format_grid_spacing _ _) as [gs|e]; try reflexivity;
  destruct (create_engine _ _ _ _ _ _ _) as [[eng|e] evs]; cbn [fst snd];
  try (rewrite <- ?app_assoc; reflexivity);
  destruct (arg_init_coords args) as [[|c f]|];
  try destruct (load_molecule (c :: f)) as [m|e]; cbn [bind];
  try (rewrite <- ?app_assoc; reflexivity);
  destruct (run_master _ _ _ _ _) as [ge|e];
  rewrite <- ?app_assoc; reflexivity.
Qed.

Lemma engine_events_kind (args : cli_args) (cd : option Constraints) (ev : event Energy) :
  In ev (engine_events args cd) -> exists x, ev = EngineEvent x.
Proof.
  unfold engine_events. intros H. apply in_map_iff in H as (x & <- & _). now exists x.
Qed.

Lemma engine_events_rows (args : cli_args) (cd : option Constraints) :
  row_ids Energy (engine_events args cd) = [].
Proof.
  unfold engine_events. induction (snd (engine_step args cd)) as [|x l IH]; [reflexivity|].
  exact IH.
Qed.

(** A run that starts the scan has loaded the dihedral file, built the
    constraints dict and formatted the grid spacing it hands on. *)
Lemma main_scan_inv (args : cli_args) (g : list Z) :
  In (ScanStarted g) (snd (main make_constraints_dict load_molecule new_work_queue new_engine
                              run_master args [])) ->
  exists idxs rngs cd,
    load_dihedralfile (arg_dihedralfile args) (arg_zero_based_numbering args) = Ok (idxs, rngs) /\
    constraints_step args idxs = Ok cd /\
    format_grid_spacing (arg_grid_spacing args) (length idxs) = Ok g.
Proof.
  rewrite main_steps.
  assert (Hp : ~ In (ScanStarted g) (main_prefix Energy args))
    by (unfold main_prefix; destruct (arg_zero_based_numbering args); simpl; intuition discriminate).
  assert (He : forall cd, ~ In (ScanStarted g) (engine_events args cd))
    by (intros cd H; destruct (engine_events_kind _ _ _ H); discriminate).
  destruct (load_dihedralfile _ _) as [[idxs rngs]|e] eqn:El; [|intros H; exfalso; exact (Hp H)].
  destruct (constraints_step args idxs) as [cd|e] eqn:Ec; [|intros H; exfalso; exact (Hp H)].
  destruct (format_grid_spacing _ _) as [gs|e] eqn:Ef; [|intros H; exfalso; exact (Hp H)].
  intros H. exists idxs, rngs, cd. split; [reflexivity|split; [exact Ec|]]. rewrite Ef.
  assert (Hin : forall tr, In (ScanStarted g)
                  (main_prefix Energy args ++ engine_events args cd
                     ++ [EngineCreated; ScanStarted gs] ++ tr) ->
                  (forall ev, In ev tr -> ev <> ScanStarted g) -> gs = g).
  { intros tr Ht Htr. rewrite !in_app_iff in Ht. destruct Ht as [Ht|[Ht|[Ht|Ht]]].
    - exfalso. exact (Hp Ht).
    - exfalso. exact (He cd Ht).
    - simpl in Ht. destruct Ht as [Ht|[Ht|Ht]]; [discriminate|congruence|contradiction].
    - exfalso. exact (Htr _ Ht eq_refl). }
  f_equal. revert H.
  destruct (fst (engine_step args cd)) as [eng|e].
  2:{ intros H. cbn [snd] in H. rewrite in_app_iff in H. exfalso. destruct H as [H|H]; [exact (Hp H)|exact (He cd H)]. }
  destruct (init_coords_step args) as [m|e].
  2:{ intros H. cbn [snd] in H. rewrite !in_app_iff in H. exfalso.
      destruct H as [H|[H|[H|[]]]]; [exact (Hp H)|exact (He cd H)|discriminate]. }
  destruct (run_master eng idxs rngs gs m) as [ge|e].
  - destruct (print_table_events ge (main_prefix Energy args ++ engine_events args cd
                                       ++ [EngineCreated; ScanStarted gs]))
      as (added & -> & Ha).
    cbn [snd]. intros H. rewrite <- !app_assoc in H. apply (Hin added H).
    intros ev Hev ->. rewrite Forall_forall in Ha. exact (Ha _ Hev).
  - cbn [snd]. intros H. apply (Hin []); [rewrite app_nil_r; exact H|]. intros ev [].
Qed.

(** A run whose steps up to [Molecule(...)] succeed starts the scan with
    the formatted grid spacing. *)
Lemma main_scan_reached (args : cli_args) idxs rngs cd gs eng m :
  load_dihedralfile (arg_dihedralfile args) (arg_zero_based_numbering args) = Ok (idxs, rngs) ->
  constraints_step args idxs = Ok cd ->
  format_grid_spacing (arg_grid_spacing args) (length idxs) = Ok gs ->
  fst (engine_step args cd) = Ok eng ->
  init_coords_step args = Ok m ->
  In (ScanStarted gs) (snd (main make_constraints_dict load_molecule new_work_queue new_engine
                               run_master args [])).
Proof.
  intros Hl Hc Hf Hg Hi. rewrite main_steps, Hl, Hc, Hf, Hg, Hi.
  destruct (run_master eng idxs rngs gs m) as [ge|e].
  - destruct (print_table_events ge (main_prefix Energy args ++ engine_events args cd
                                       ++ [EngineCreated; ScanStarted gs]))
      as (added & -> & _).
    cbn [snd]. apply in_or_app. left.
    apply in_or_app. right. apply in_or_app. right. simpl. right. left. reflexivity.
  - cbn [snd]. apply in_or_app. right. apply in_or_app. right. simpl. right. left. reflexivity.
Qed.

End MainProofs.

Lemma main_prefix_rows {Energy} (args : cli_args) : row_ids Energy (main_prefix Energy args) = [].
Proof. unfold main_prefix. destruct (arg_zero_based_numbering args); reflexivity. Qed.

(** ** C8: the final table is sorted by grid id *)

Section MainTable.

Context {Energy Engine WorkQueue Constraints Molecule : Type}.
Variable make_constraints_dict : pystr -> list (list Z) -> result Constraints.
Variable load_molecule : pystr -> result Molecule.
Variable new_work_queue : Z -> result WorkQueue.
Variable new_engine : engine_class -> option pystr -> option WorkQueue -> bool
  -> option Constraints -> result Engine.
Variable run_master : Engine -> list (list Z) -> list (list Z) -> list Z
  -> option Molecule -> result (list (grid_id * Energy)).

(** C8: every row [main] prints comes from the final table, whose grid ids
    are in lexicographic order by integer tuple; when the scan finishes,
    the table lists every grid id of the scanner's [grid_energies]. *)
Theorem main_table_sorted (args : cli_args) :
  Sorted lex_le
    (row_ids Energy (snd (main make_constraints_dict load_molecule new_work_queue new_engine
                            run_master args []))) /\
  (forall idxs rngs cd gs eng m grid_energies,
     load_dihedralfile (arg_dihedralfile args) (arg_zero_based_numbering args)
       = Ok (idxs, rngs) ->
     constraints_step make_constraints_dict args idxs = Ok cd ->
     format_grid_spacing (arg_grid_spacing args) (length idxs) = Ok gs ->
     fst (engine_step new_work_queue new_engine args cd) = Ok eng ->
     init_coords_step load_molecule args = Ok m ->
     run_master eng idxs rngs gs m = Ok grid_energies ->
     Permutation
       (row_ids Energy (snd (main make_constraints_dict load_molecule new_work_queue new_engine
                               run_master args [])))
       (map fst grid_energies)).
Proof.
  rewrite main_steps. split.
  - destruct (load_dihedralfile _ _) as [[idxs rngs]|e];
      [|cbn [snd]; rewrite main_prefix_rows; constructor].
    destruct (constraints_step _ _ _) as [cd|e];
      [|cbn [snd]; rewrite main_prefix_rows; constructor].
    destruct (format_grid_spacing _ _) as [gs|e];
      [|cbn [snd]; rewrite main_prefix_rows; constructor].
    destruct (fst (engine_step _ _ _ _)) as [eng|e];
      [|cbn [snd]; rewrite row_ids_app, main_prefix_rows, engine_events_rows; constructor].
    destruct (init_coords_step _ _) as [m|e];
      [|cbn [snd]; rewrite !row_ids_app, main_prefix_rows, engine_events_rows; constructor].
    destruct (run_master eng idxs rngs gs m) as [ge|e];
      [|cbn [snd]; rewrite !row_ids_app, main_prefix_rows, engine_events_rows; constructor].
    destruct (print_table_spec ge (main_prefix Energy args
                                   ++ engine_events new_work_queue new_engine args cd
                                   ++ [EngineCreated; ScanStarted gs]))
      as (added & -> & Hi).
    cbn [snd]. rewrite !row_ids_app, main_prefix_rows, engine_events_rows, Hi.
    apply python_sorted_spec.
  - intros idxs rngs cd gs eng m ge Hl Hc Hf Hg Hi Hr. rewrite Hl, Hc, Hf, Hg, Hi, Hr.
    destruct (print_table_spec ge (main_prefix Energy args
                                   ++ engine_events new_work_queue new_engine args cd
                                   ++ [EngineCreated; ScanStarted gs]))
      as (added & -> & Ha).
    cbn [snd]. rewrite !row_ids_app, main_prefix_rows, engine_events_rows, Ha.
    apply python_sorted_spec.
Qed.

End MainTable.

(** Collaborators for the concrete runs below: every call succeeds, and the
    scanner reports an empty table. *)
Definition ok_constraints (_ : pystr) (_ : list (list Z)) : result unit := Ok tt.
Definition ok_molecule (_ : pystr) : result unit := Ok tt.
Definition ok_work_queue (_ : Z) : result unit := Ok tt.
Definition ok_engine (_ : engine_class) (_ : option pystr) (_ : option unit) (_ : bool)
    (_ : option unit) : result unit := Ok tt.
Definition empty_master (_ : unit) (_ _ : list (list Z)) (_ : list Z) (_ : option unit)
  : result (list (grid_id * unit)) := Ok [].

Definition table_example_args : cli_args :=
  mk_cli_args (lit "input.dat") [lit "1 2 3 4"; lit "2 3 4 5"] None [15] (lit "psi4")
    None false None false.

Definition table_example_master (_ : unit) (_ _ : list (list Z)) (_ : list Z)
    (_ : option unit) : result (list (grid_id * unit)) :=
  Ok [([0; 15], tt); ([-15; 0], tt); ([0; -15], tt); ([-15; -15], tt)].

Lemma main_table_sorted_witness :
  load_dihedralfile (arg_dihedralfile table_example_args) false
    = Ok ([[0; 1; 2; 3]; [1; 2; 3; 4]], []) /\
  Permutation
    (row_ids unit (snd (main ok_constraints ok_molecule ok_work_queue ok_engine
                           table_example_master table_example_args [])))
    [[0; 15]; [-15; 0]; [0; -15]; [-15; -15]].
Proof.
  assert (Hl : load_dihedralfile (arg_dihedralfile table_example_args) false
               = Ok ([[0; 1; 2; 3]; [1; 2; 3; 4]], [])) by reflexivity.
  split; [exact Hl|].
  exact (proj2 (main_table_sorted ok_constraints ok_molecule ok_work_queue ok_engine
                  table_example_master table_example_args)
           _ _ None [15; 15] tt None _ Hl eq_refl eq_refl eq_refl eq_refl eq_refl).
Defined.

(** ** C5: the number of [--grid_spacing] values *)

Lemma format_grid_spacing_same (gs : list Z) (n : nat) :
  length gs = n -> format_grid_spacing gs n = Ok gs.
Proof. intros H. unfold format_grid_spacing. now rewrite H, Nat.eqb_refl. Qed.

Lemma format_grid_spacing_single (v : Z) (n : nat) :
  format_grid_spacing [v] n = Ok (repeat v n).
Proof.
  unfold format_grid_spacing. simpl length.
  destruct (Nat.eqb 1 n) eqn:E.
  - apply Nat.eqb_eq in E. now subst n.
  - cbn [Nat.eqb]. f_equal. clear E. induction n as [|n IH]; simpl; [reflexivity|now rewrite IH].
Qed.

Lemma format_grid_spacing_other (gs : list Z) (n : nat) :
  length gs <> n -> length gs <> 1%nat -> format_grid_spacing gs n = Err ValueError.
Proof.
  intros H1 H2. unfold format_grid_spacing.
  apply Nat.eqb_neq in H1, H2. now rewrite H1, H2.
Qed.

Lemma main_prefix_no_engine {Energy} (args : cli_args) :
  ~ In EngineCreated (main_prefix Energy args) /\
  (forall ev, ~ In (EngineEvent ev) (main_prefix Energy args)) /\
  forall g, ~ In (ScanStarted g) (main_prefix Energy args).
Proof.
  unfold main_prefix. split; [|split; [intros ev|intros g]];
    destruct (arg_zero_based_numbering args); simpl; intuition discriminate.
Qed.

Section MainGridSpacing.

Context {Energy Engine WorkQueue Constraints Molecule : Type}.
Variable make_constraints_dict : pystr -> list (list Z) -> result Constraints.
Variable load_molecule : pystr -> result Molecule.
Variable new_work_queue : Z -> result WorkQueue.
Variable new_engine : engine_class -> option pystr -> option WorkQueue -> bool
  -> option Constraints -> result Engine.
Variable run_master : Engine -> list (list Z) -> list (list Z) -> list Z
  -> option Molecule -> result (list (grid_id * Energy)).

(** C5: once the dihedral file is loaded, [main] hands [DihedralScanner]
    the [--grid_spacing] values as given when there is one per dihedral, and
    the single value repeated once per dihedral when one value is given
    (provided the constraints, the engine and the [--init_coords] geometry
    are obtained); for any other count it fails, with [ValueError] when the
    extra constraints were read, before creating the engine (no work queue
    opened, no engine class called) or starting the scan. *)
Theorem main_grid_spacing (args : cli_args) (idxs rngs : list (list Z)) :
  load_dihedralfile (arg_dihedralfile args) (arg_zero_based_numbering args) = Ok (idxs, rngs) ->
  let gs := arg_grid_spacing args in
  let run := main make_constraints_dict load_molecule new_work_queue new_engine
               run_master args [] in
  (length gs = length idxs ->
     forall cd eng m,
     constraints_step make_constraints_dict args idxs = Ok cd ->
     fst (engine_step new_work_queue new_engine args cd) = Ok eng ->
     init_coords_step load_molecule args = Ok m ->
     In (ScanStarted gs) (snd run)) /\
  (forall v, gs = [v] ->
     forall cd eng m,
     constraints_step make_constraints_dict args idxs = Ok cd ->
     fst (engine_step new_work_queue new_engine args cd) = Ok eng ->
     init_coords_step load_molecule args = Ok m ->
     In (ScanStarted (repeat v (length idxs))) (snd run)) /\
  (length gs <> length idxs -> length gs <> 1%nat ->
     (exists e, fst run = Err e) /\
     (forall cd, constraints_step make_constraints_dict args idxs = Ok cd ->
                 fst run = Err ValueError) /\
     ~ In EngineCreated (snd run) /\
     (forall ev, ~ In (EngineEvent ev) (snd run)) /\
     (forall g, ~ In (ScanStarted g) (snd run))).
Proof.
  intros Hl gs run. split; [|split].
  - intros Hn cd eng m Hc Hg Hi.
    exact (main_scan_reached make_constraints_dict load_molecule new_work_queue new_engine
             run_master args idxs rngs cd gs eng m Hl Hc (format_grid_spacing_same gs _ Hn) Hg Hi).
  - intros v Hv cd eng m Hc Hg Hi.
    assert (Hf : format_grid_spacing gs (length idxs) = Ok (repeat v (length idxs)))
      by (rewrite Hv; apply format_grid_spacing_single).
    exact (main_scan_reached make_constraints_dict load_molecule new_work_queue new_engine
             run_master args idxs rngs cd _ eng m Hl Hc Hf Hg Hi).
  - intros H1 H2. unfold run. rewrite main_steps, Hl.
    change (arg_grid_spacing args) with gs.
    rewrite (format_grid_spacing_other gs (length idxs) H1 H2).
    destruct (main_prefix_no_engine (Energy := Energy) args) as (He & Hv & Hs).
    destruct (constraints_step make_constraints_dict args idxs) as [cd|e]; cbn [fst snd].
    + repeat split; [now exists ValueError|exact He|exact Hv|exact Hs].
    + repeat split; [now exists e|discriminate|exact He|exact Hv|exact Hs].
Qed.

End MainGridSpacing.

Definition spacing_example_args : cli_args :=
  mk_cli_args (lit "input.dat") [lit "1 2 3 4"] None [15; 30] (lit "psi4") None false None false.

Lemma main_grid_spacing_witness :
  load_dihedralfile (arg_dihedralfile spacing_example_args) false = Ok ([[0; 1; 2; 3]], []) /\
  fst (main ok_constraints ok_molecule ok_work_queue ok_engine empty_master
         spacing_example_args []) = Err ValueError.
Proof.
  assert (Hl : load_dihedralfile (arg_dihedralfile spacing_example_args) false
               = Ok ([[0; 1; 2; 3]], [])) by reflexivity.
  split; [exact Hl|].
  destruct (main_grid_spacing ok_constraints ok_molecule ok_work_queue ok_engine empty_master
              spacing_example_args _ _ Hl) as (_ & _ & Hother).
  destruct (Hother ltac:(discriminate) ltac:(discriminate)) as (_ & Hv & _).
  exact (Hv None eq_refl).
Defined.

(** * Further properties of the code *)

(** ** [load_dihedralfile] *)

(** A line the reading loop treats as a dihedral line: not empty and not a
    comment. *)
Definition is_data_line (line : pystr) : bool :=
  match strip line with
  | [] => false
  | t => match comment_of t with Some _ => false | None => true end
  end.

Lemma parse_ints_length (xs : list pystr) (vs : list Z) :
  parse_ints xs = Ok vs -> length vs = length xs.
Proof.
  revert vs. induction xs as [|x xs IH]; intros vs H; simpl in H.
  - now injection H as <-.
  - destruct (parse_int x) as [v|]; [|discriminate].
    destruct (parse_ints xs) as [ws|e] eqn:E; [|discriminate]. injection H as <-.
    simpl. f_equal. now apply IH.
Qed.

Lemma parse_ints_err (xs : list pystr) :
  Exists (fun tok => parse_int tok = None) xs -> parse_ints xs = Err ValueError.
Proof.
  induction xs as [|x xs IH]; intros H; [inversion H|].
  simpl. inversion H as [? ? Hx|? ? Hr]; subst.
  - now rewrite Hx.
  - destruct (parse_int x); [|reflexivity]. now rewrite (IH Hr).
Qed.

Lemma parse_ints_err_value (xs : list pystr) (e : py_error) :
  parse_ints xs = Err e -> e = ValueError.
Proof.
  induction xs as [|x xs IH]; simpl; [discriminate|].
  destruct (parse_int x); [|congruence].
  destruct (parse_ints xs); simpl; [discriminate|exact IH].
Qed.

(** A line the loop accepts contributes one dihedral of four indices if it
    is a dihedral line, nothing otherwise. *)
Lemma read_line_written (st st' : read_state) (l : pystr) :
  read_line st l = Ok st' ->
  length (written_line l) = (if is_data_line l then 1 else 0)%nat /\
  Forall (fun d => length d = 4%nat) (written_line l).
Proof.
  unfold read_line, written_line, is_data_line, bind. intros H.
  destruct (strip l) as [|c r]; [split; [reflexivity|constructor]|].
  destruct (comment_of (c :: r)) as [cm|]; [split; [reflexivity|constructor]|].
  set (ls := split_ws (c :: r)) in *.
  destruct (Nat.eqb (length ls) 4) eqn:E4.
  - apply Nat.eqb_eq in E4. rewrite firstn_all2 by lia.
    destruct (parse_ints ls) as [d|e] eqn:Ep; [|discriminate].
    apply parse_ints_length in Ep. split; [reflexivity|repeat constructor; lia].
  - destruct (Nat.eqb (length ls) 6) eqn:E6; [|discriminate].
    apply Nat.eqb_eq in E6.
    destruct (parse_ints (firstn 4 ls)) as [d|e] eqn:Ep; [|discriminate].
    apply parse_ints_length in Ep. rewrite length_firstn in Ep.
    split; [reflexivity|repeat constructor; lia].
Qed.

Lemma read_lines_written (st st' : read_state) (L : list pystr) :
  read_lines st L = Ok st' ->
  length (written_indices L) = length (filter is_data_line L) /\
  Forall (fun d => length d = 4%nat) (written_indices L).
Proof.
  revert st. induction L as [|l L IH]; intros st H; simpl in *; [split; [reflexivity|constructor]|].
  destruct (read_line st l) as [s|e] eqn:E; [|discriminate].
  destruct (read_line_written _ _ _ E) as [Hn Hf]. destruct (IH s H) as [Hn' Hf'].
  split.
  - rewrite length_app, Hn, Hn'. destruct (is_data_line l); reflexivity.
  - apply Forall_app. split; assumption.
Qed.

(** [load_dihedralfile] as reading followed by [finish], with what reading
    leaves in the state. *)
Lemma load_dihedralfile_read (lines : list pystr) (zb : bool) (r : list (list Z) * list (list Z)) :
  load_dihedralfile lines zb = Ok r ->
  exists st, read_lines (mk_read_state zb [] []) lines = Ok st /\ finish st = Ok r /\
    zero_based st = zb || existsb (is_directive "zero_based_numbering") lines /\
    dihedral_idxs st = map (map (fun i => i - 1)) (written_indices lines).
Proof.
  unfold load_dihedralfile. intros H.
  destruct (read_lines _ lines) as [st|e] eqn:E; [|discriminate].
  exists st. split; [reflexivity|split; [exact H|]].
  pose proof (read_lines_flag _ _ _ E) as Hf. pose proof (read_lines_idxs _ _ _ E) as Hi.
  simpl in Hf, Hi. split; assumption.
Qed.

Lemma finish_ok (st : read_state) (idxs rngs : list (list Z)) :
  finish st = Ok (idxs, rngs) ->
  rngs = [] /\
  idxs = (if zero_based st then map (map (fun i => i + i)) (dihedral_idxs st)
          else dihedral_idxs st) /\
  Forall (Forall (fun i => 0 <= i)) idxs.
Proof.
  unfold finish. intros H.
  destruct (forallb _ _) eqn:Ef; [|discriminate].
  destruct (dihedral_ranges st) eqn:Er; [|discriminate].
  injection H as <- <-. split; [reflexivity|split; [reflexivity|]].
  apply Forall_forall. intros d Hd. apply Forall_forall. intros i Hi.
  rewrite forallb_forall in Ef. specialize (Ef d Hd). rewrite forallb_forall in Ef.
  apply Z.leb_le. exact (Ef i Hi).
Qed.

(** X1: whenever [load_dihedralfile] returns, [dihedral_ranges] is empty,
    and [dihedral_idxs] holds one dihedral per dihedral line of the file,
    each made of four indices that are all [>= 0]. *)
Theorem load_dihedralfile_result_shape (lines : list pystr) (zb : bool)
    (idxs rngs : list (list Z)) :
  load_dihedralfile lines zb = Ok (idxs, rngs) ->
  rngs = [] /\
  length idxs = length (filter is_data_line lines) /\
  Forall (fun d => length d = 4%nat /\ Forall (fun i => 0 <= i) d) idxs.
Proof.
  intros H. destruct (load_dihedralfile_read _ _ _ H) as (st & Hr & Hfin & _ & Hi).
  destruct (finish_ok _ _ _ Hfin) as (Hrg & Hidx & Hpos).
  destruct (read_lines_written _ _ _ Hr) as [Hn Hf].
  split; [exact Hrg|split].
  - rewrite Hidx, Hi. destruct (zero_based st); rewrite !length_map; exact Hn.
  - apply Forall_forall. intros d Hd. split; [|rewrite Forall_forall in Hpos; exact (Hpos d Hd)].
    rewrite Hidx, Hi in Hd. rewrite Forall_forall in Hf.
    destruct (zero_based st).
    + apply in_map_iff in Hd as (d1 & <- & Hd1). apply in_map_iff in Hd1 as (d0 & <- & Hd0).
      rewrite !length_map. exact (Hf d0 Hd0).
    + apply in_map_iff in Hd as (d0 & <- & Hd0). rewrite length_map. exact (Hf d0 Hd0).
Qed.

Lemma load_dihedralfile_result_shape_witness :
  load_dihedralfile [lit "# i j k l"; lit ""; lit "1 2 3 4"; lit "2 3 4 5"] false
  = Ok ([[0; 1; 2; 3]; [1; 2; 3; 4]], []) /\
  length [[0; 1; 2; 3]; [1; 2; 3; 4]]
  = length (filter is_data_line [lit "# i j k l"; lit ""; lit "1 2 3 4"; lit "2 3 4 5"]).
Proof.
  assert (H : load_dihedralfile [lit "# i j k l"; lit ""; lit "1 2 3 4"; lit "2 3 4 5"] false
              = Ok ([[0; 1; 2; 3]; [1; 2; 3; 4]], [])) by reflexivity.
  split; [exact H|]. exact (proj1 (proj2 (load_dihedralfile_result_shape _ _ _ _ H))).
Defined.

(** X2: in either numbering mode, [load_dihedralfile] returns only if every
    atom index written in the file is at least 1, so a file that uses
    atom 0 (natural in zero-based numbering) is always refused; once the
    file has been read without error, a written index below 1 makes it
    raise [AssertionError]. *)
Theorem load_dihedralfile_min_index (lines : list pystr) (zb : bool) :
  (forall r, load_dihedralfile lines zb = Ok r ->
     Forall (Forall (fun v => 1 <= v)) (written_indices lines)) /\
  (forall st, read_lines (mk_read_state zb [] []) lines = Ok st ->
     Exists (Exists (fun v => v < 1)) (written_indices lines) ->
     load_dihedralfile lines zb = Err AssertionError).
Proof.
  split.
  - intros [idxs rngs] H. destruct (load_dihedralfile_read _ _ _ H) as (st & _ & Hfin & _ & Hi).
    destruct (finish_ok _ _ _ Hfin) as (_ & Hidx & Hpos). rewrite Hidx, Hi in Hpos.
    apply Forall_forall. intros d Hd. apply Forall_forall. intros v Hv.
    rewrite Forall_forall in Hpos.
    destruct (zero_based st).
    + assert (Hin : In (map (fun i => i + i) (map (fun i => i - 1) d))
                       (map (map (fun i => i + i)) (map (map (fun i => i - 1)) (written_indices lines))))
        by (apply in_map, in_map, Hd).
      specialize (Hpos _ Hin). rewrite Forall_forall in Hpos.
      specialize (Hpos (v - 1 + (v - 1)) (in_map _ _ _ (in_map (fun i => i - 1) _ _ Hv))). lia.
    + assert (Hin : In (map (fun i => i - 1) d) (map (map (fun i => i - 1)) (written_indices lines)))
        by (apply in_map, Hd).
      specialize (Hpos _ Hin). rewrite Forall_forall in Hpos.
      specialize (Hpos (v - 1) (in_map (fun i => i - 1) _ _ Hv)). lia.
  - intros st Hr Hex. unfold load_dihedralfile. rewrite Hr. cbn [bind].
    pose proof (read_lines_idxs _ _ _ Hr) as Hi. simpl in Hi.
    unfold finish. rewrite Hi.
    replace (forallb (forallb (fun i => 0 <=? i)) _) with false; [reflexivity|].
    symmetry. apply Exists_exists in Hex as (d & Hd & Hv). apply Exists_exists in Hv as (v & Hv & Hlt).
    apply not_true_iff_false. rewrite forallb_forall. intros Hall.
    destruct (zero_based st).
    + specialize (Hall _ (in_map _ _ _ (in_map (map (fun i => i - 1)) _ _ Hd))).
      rewrite forallb_forall in Hall.
      specialize (Hall _ (in_map (fun i => i + i) _ _ (in_map (fun i => i - 1) _ _ Hv))).
      apply Z.leb_le in Hall. lia.
    + specialize (Hall _ (in_map (map (fun i => i - 1)) _ _ Hd)).
      rewrite forallb_forall in Hall.
      specialize (Hall _ (in_map (fun i => i - 1) _ _ Hv)). apply Z.leb_le in Hall. lia.
Qed.

Lemma load_dihedralfile_min_index_witness :
  read_lines (mk_read_state true [] []) [lit "0 1 2 3"]
  = Ok (mk_read_state true [[-1; 0; 1; 2]] []) /\
  load_dihedralfile [lit "0 1 2 3"] true = Err AssertionError /\
  Forall (Forall (fun v => 1 <= v)) (written_indices [lit "1 2 3 4"]).
Proof.
  assert (Hr : read_lines (mk_read_state true [] []) [lit "0 1 2 3"]
               = Ok (mk_read_state true [[-1; 0; 1; 2]] [])) by reflexivity.
  assert (Hl : load_dihedralfile [lit "1 2 3 4"] true = Ok ([[0; 2; 4; 6]], [])) by reflexivity.
  split; [exact Hr|split].
  - apply (proj2 (load_dihedralfile_min_index [lit "0 1 2 3"] true) _ Hr).
    vm_compute. repeat constructor.
  - exact (proj1 (load_dihedralfile_min_index [lit "1 2 3 4"] true) _ Hl).
Defined.

Lemma load_dihedralfile_doubled (lines : list pystr) (zb : bool) (idxs rngs : list (list Z)) :
  zb || existsb (is_directive "zero_based_numbering") lines = true ->
  load_dihedralfile lines zb = Ok (idxs, rngs) ->
  idxs = map (map (fun v => (v - 1) + (v - 1))) (written_indices lines).
Proof.
  intros Hz H. destruct (load_dihedralfile_read _ _ _ H) as (st & _ & Hfin & Hf & Hi).
  destruct (finish_ok _ _ _ Hfin) as (_ & Hidx & _).
  rewrite Hidx, Hf, Hz, Hi, map_map. apply map_ext. intros d. apply map_map.
Qed.

(** X3: with zero-based numbering on (by the parameter or by a
    [#zero_based_numbering] line anywhere in the file), each atom index [v]
    written in the file comes back as [(v-1)+(v-1)], in file order. *)
Theorem load_dihedralfile_zero_based_result (lines : list pystr) (zb : bool)
    (idxs rngs : list (list Z)) :
  zb || existsb (is_directive "zero_based_numbering") lines = true ->
  load_dihedralfile lines zb = Ok (idxs, rngs) ->
  idxs = map (map (fun v => (v - 1) + (v - 1))) (written_indices lines).
Proof. exact (load_dihedralfile_doubled lines zb idxs rngs). Qed.

Lemma load_dihedralfile_zero_based_result_witness :
  false || existsb (is_directive "zero_based_numbering") [lit "3 4 5 6"; lit "#ZERO_based_numbering "]
  = true /\
  load_dihedralfile [lit "3 4 5 6"; lit "#ZERO_based_numbering "] false = Ok ([[4; 6; 8; 10]], []) /\
  [[4; 6; 8; 10]] = map (map (fun v => (v - 1) + (v - 1)))
                      (written_indices [lit "3 4 5 6"; lit "#ZERO_based_numbering "]).
Proof.
  assert (Hz : false || existsb (is_directive "zero_based_numbering")
                 [lit "3 4 5 6"; lit "#ZERO_based_numbering "] = true) by reflexivity.
  assert (Hl : load_dihedralfile [lit "3 4 5 6"; lit "#ZERO_based_numbering "] false
               = Ok ([[4; 6; 8; 10]], [])) by reflexivity.
  split; [exact Hz|split; [exact Hl|]].
  exact (load_dihedralfile_zero_based_result _ _ _ _ Hz Hl).
Defined.

(** ** C9: [#zero_based_numbering] anywhere in the file *)

(** C9: a [#zero_based_numbering] comment line takes effect wherever it
    stands (even after every dihedral line): whatever the parameter,
    whenever [load_dihedralfile] returns, every dihedral of the file, those
    before the comment included, carries the zero-based conversion, each
    written index [v] coming back as [(v-1)+(v-1)]; and whenever the file
    without the comment loads with [zero_based_numbering=True], the file
    with it gives that same result. *)
Theorem zero_directive_retroactive (pre post : list pystr) (l : pystr) (z : bool) :
  is_directive "zero_based_numbering" l = true ->
  (forall idxs rngs, load_dihedralfile (pre ++ l :: post) z = Ok (idxs, rngs) ->
     idxs = map (map (fun v => (v - 1) + (v - 1))) (written_indices (pre ++ l :: post))) /\
  (forall r, load_dihedralfile (pre ++ post) true = Ok r ->
     load_dihedralfile (pre ++ l :: post) z = Ok r).
Proof.
  intros Hl. split.
  - intros idxs rngs H. apply (load_dihedralfile_doubled _ z _ rngs); [|exact H].
    rewrite existsb_app. cbn [existsb]. rewrite Hl. now rewrite !orb_true_r.
  - intros r H. unfold load_dihedralfile in *. rewrite read_lines_app in *.
    destruct (read_lines (mk_read_state true [] []) pre) as [s|e] eqn:Hpre; [|discriminate].
    cbn [bind] in H.
    destruct (read_lines_from_true [] [] pre s z Hpre) as [g Hg]. rewrite Hg.
    cbn [bind read_lines]. rewrite read_line_zero by exact Hl. cbn [bind].
    pose proof (read_lines_flag _ _ _ Hpre) as Hf. simpl in Hf.
    destruct s as [f a b]. simpl in *. subst f. exact H.
Qed.

Lemma zero_directive_retroactive_witness :
  is_directive "zero_based_numbering" (lit "#zero_based_numbering") = true /\
  load_dihedralfile ([lit "#one_based_numbering"; lit "1 2 3 4"] ++ [lit "#zero_based_numbering"])
    false = Ok ([[0; 2; 4; 6]], []) /\
  [[0; 2; 4; 6]]
  = map (map (fun v => (v - 1) + (v - 1)))
      (written_indices ([lit "#one_based_numbering"; lit "1 2 3 4"] ++ [lit "#zero_based_numbering"])) /\
  load_dihedralfile ([lit "1 2 3 4"] ++ [lit "#zero_based_numbering"]) false
  = Ok ([[0; 2; 4; 6]], []).
Proof.
  assert (Hl : is_directive "zero_based_numbering" (lit "#zero_based_numbering") = true)
    by reflexivity.
  assert (H1 : load_dihedralfile ([lit "#one_based_numbering"; lit "1 2 3 4"]
                                    ++ [lit "#zero_based_numbering"]) false
               = Ok ([[0; 2; 4; 6]], [])) by reflexivity.
  assert (Hr : load_dihedralfile ([lit "1 2 3 4"] ++ []) true = Ok ([[0; 2; 4; 6]], []))
    by reflexivity.
  split; [exact Hl|split; [exact H1|split]].
  - exact (proj1 (zero_directive_retroactive [lit "#one_based_numbering"; lit "1 2 3 4"] []
                    _ false Hl) _ _ H1).
  - exact (proj2 (zero_directive_retroactive [lit "1 2 3 4"] [] _ false Hl) _ Hr).
Defined.


(** A line that is blank, or a comment other than the two directives,
    leaves the reading state as it is. *)
Lemma read_line_neutral (st : read_state) (l : pystr) :
  strip l = [] \/
  (comment_of (strip l) <> None /\ is_directive "zero_based_numbering" l = false /\
   is_directive "one_based_numbering" l = false) ->
  read_line st l = Ok st.
Proof.
  unfold read_line, is_directive. intros [H|(Hc & Hz & Ho)]; [now rewrite H|].
  destruct (strip l) as [|c r]; [reflexivity|].
  destruct (comment_of (c :: r)) as [cm|]; [|contradiction].
  now rewrite Hz, Ho.
Qed.

(** X4: blank lines, and comment lines other than [#zero_based_numbering]
    and [#one_based_numbering], can be added anywhere in a dihedral file
    without changing what [load_dihedralfile] returns or raises. *)
Theorem load_dihedralfile_neutral_line (pre post : list pystr) (l : pystr) (zb : bool) :
  strip l = [] \/
  (comment_of (strip l) <> None /\ is_directive "zero_based_numbering" l = false /\
   is_directive "one_based_numbering" l = false) ->
  load_dihedralfile (pre ++ l :: post) zb = load_dihedralfile (pre ++ post) zb.
Proof.
  intros Hl. unfold load_dihedralfile. rewrite !read_lines_app.
  destruct (read_lines _ pre) as [s|e]; [|reflexivity]. cbn [bind read_lines].
  rewrite (read_line_neutral s l Hl). reflexivity.
Qed.

Lemma load_dihedralfile_neutral_line_witness :
  load_dihedralfile ([lit "1 2 3 4"] ++ lit "  # one based numbering" :: [lit "2 3 4 5"]) true
  = load_dihedralfile ([lit "1 2 3 4"] ++ [lit "2 3 4 5"]) true.
Proof.
  apply load_dihedralfile_neutral_line. right. split; [discriminate|split; reflexivity].
Defined.

(** X5: a dihedral line of 4 or 6 fields with a field that [int()] does not
    accept (a float such as [-90.5], a name, ...) makes
    [load_dihedralfile] raise [ValueError] once the loop reaches it. *)
Theorem load_dihedralfile_bad_field (pre post : list pystr) (l : pystr) (zb : bool)
    (st : read_state) :
  read_lines (mk_read_state zb [] []) pre = Ok st ->
  comment_of (strip l) = None ->
  (length (split_ws (strip l)) = 4%nat \/ length (split_ws (strip l)) = 6%nat) ->
  Exists (fun tok => parse_int tok = None) (split_ws (strip l)) ->
  load_dihedralfile (pre ++ l :: post) zb = Err ValueError.
Proof.
  intros Hpre Hc Hlen Hex. unfold load_dihedralfile. rewrite read_lines_app, Hpre.
  cbn [bind read_lines]. unfold read_line.
  destruct (strip l) as [|a r]; [simpl in Hlen; lia|]. rewrite Hc.
  set (ls := split_ws (a :: r)) in *.
  destruct (Nat.eqb (length ls) 4) eqn:E4.
  - rewrite (parse_ints_err ls Hex). reflexivity.
  - apply Nat.eqb_neq in E4. destruct Hlen as [H4|H6]; [contradiction|].
    rewrite H6. cbn [Nat.eqb].
    rewrite <- (firstn_skipn 4 ls) in Hex. apply Exists_app in Hex as [Hf|Hs].
    + rewrite (parse_ints_err _ Hf). reflexivity.
    + destruct (parse_ints (firstn 4 ls)) as [d|e] eqn:Ef;
        [|apply parse_ints_err_value in Ef; subst e; reflexivity]. cbn [bind].
      rewrite (parse_ints_err _ Hs). reflexivity.
Qed.

Lemma load_dihedralfile_bad_field_witness :
  load_dihedralfile ([lit "1 2 3 4"] ++ lit "2 3 4 5 -90.5 90" :: []) false = Err ValueError.
Proof.
  apply (load_dihedralfile_bad_field [lit "1 2 3 4"] [] _ false (mk_read_state false [[0; 1; 2; 3]] []));
    [reflexivity|reflexivity|right; reflexivity|].
  vm_compute. apply Exists_cons_tl, Exists_cons_tl, Exists_cons_tl, Exists_cons_tl, Exists_cons_hd.
  reflexivity.
Defined.

(** ** [main] *)

Lemma format_grid_spacing_ok (gs : list Z) (n : nat) (g : list Z) :
  format_grid_spacing gs n = Ok g -> length g = n /\ incl g gs.
Proof.
  unfold format_grid_spacing. destruct (Nat.eqb (length gs) n) eqn:E.
  - intros H. injection H as <-. apply Nat.eqb_eq in E. split; [exact E|apply incl_refl].
  - destruct (Nat.eqb (length gs) 1) eqn:E1; [|discriminate].
    intros H. injection H as <-. apply Nat.eqb_eq in E1.
    split.
    + clear E. induction n as [|n IH]; simpl; [reflexivity|]. rewrite length_app, IH. lia.
    + intros v Hv. apply in_concat in Hv as (l & Hl & Hv).
      apply repeat_spec in Hl. now subst l.
Qed.

Section MainRuns.

Context {Energy Engine WorkQueue Constraints Molecule : Type}.
Variable make_constraints_dict : pystr -> list (list Z) -> result Constraints.
Variable load_molecule : pystr -> result Molecule.
Variable new_work_queue : Z -> result WorkQueue.
Variable new_engine : engine_class -> option pystr -> option WorkQueue -> bool
  -> option Constraints -> result Engine.
Variable run_master : Engine -> list (list Z) -> list (list Z) -> list Z
  -> option Molecule -> result (list (grid_id * Energy)).

(** X6: when the dihedral file cannot be loaded, [main] stops with the
    exception of [load_dihedralfile]; by then it has printed the command
    line (and the deprecation notice when [--zero_based_numbering] is
    given) and nothing else: no engine is created, no scan is started. *)
Theorem main_load_error (args : cli_args) (e : py_error) :
  load_dihedralfile (arg_dihedralfile args) (arg_zero_based_numbering args) = Err e ->
  main make_constraints_dict load_molecule new_work_queue new_engine run_master args []
  = (Err e, [Printed (lit "<command line>")]
            ++ (if arg_zero_based_numbering args
                then [Printed (lit "The use of command line --zero_based_numbering is deprecated")]
                else [])).
Proof. intros H. rewrite main_steps, H. reflexivity. Qed.

(** X7: [make_constraints_dict] is called on the [--constraints] text with
    the loaded dihedrals as [exclude]; when it raises, [main] stops with
    that exception before the grid spacing is checked (even a wrong count
    of [--grid_spacing] values is then not reported) and before any engine
    is created. *)
Theorem main_constraints_error (args : cli_args) (idxs rngs : list (list Z)) (text : pystr)
    (e : py_error) :
  load_dihedralfile (arg_dihedralfile args) (arg_zero_based_numbering args) = Ok (idxs, rngs) ->
  arg_constraints args = Some text ->
  make_constraints_dict text idxs = Err e ->
  main make_constraints_dict load_molecule new_work_queue new_engine run_master args []
  = (Err e, main_prefix Energy args).
Proof.
  intros Hl Hc He. rewrite main_steps, Hl. unfold constraints_step. rewrite Hc, He. reflexivity.
Qed.

(** X8: a non-empty [--init_coords] file is read only after
    [create_engine] has returned the QM engine: when
    [Molecule(args.init_coords)] raises, [main] stops with that exception,
    the engine has been created (with the work queue and engine-class call
    that took), and the scan has not started. *)
Theorem main_init_coords_error (args : cli_args) (idxs rngs : list (list Z))
    (cd : option Constraints) (gs : list Z) (eng : Engine) (f : pystr) (e : py_error) :
  load_dihedralfile (arg_dihedralfile args) (arg_zero_based_numbering args) = Ok (idxs, rngs) ->
  constraints_step make_constraints_dict args idxs = Ok cd ->
  format_grid_spacing (arg_grid_spacing args) (length idxs) = Ok gs ->
  fst (engine_step new_work_queue new_engine args cd) = Ok eng ->
  arg_init_coords args = Some f ->
  f <> [] ->
  load_molecule f = Err e ->
  main make_constraints_dict load_molecule new_work_queue new_engine run_master args []
  = (Err e, main_prefix Energy args ++ engine_events new_work_queue new_engine args cd
            ++ [EngineCreated]).
Proof.
  intros Hl Hc Hf Hg Hi Hne He. rewrite main_steps, Hl, Hc, Hf, Hg.
  unfold init_coords_step. rewrite Hi.
  destruct f as [|c f]; [contradiction|]. rewrite He. reflexivity.
Qed.

(** X9: whenever [main] starts the scan, the dihedral file was loaded and
    the grid spacing handed to [DihedralScanner] has exactly one value per
    loaded dihedral, each of them one of the [--grid_spacing] values. *)
Theorem main_scan_grid_spacing (args : cli_args) (gs : list Z) :
  In (ScanStarted gs) (snd (main make_constraints_dict load_molecule new_work_queue new_engine run_master args [])) ->
  exists idxs rngs,
    load_dihedralfile (arg_dihedralfile args) (arg_zero_based_numbering args) = Ok (idxs, rngs) /\
    length gs = length idxs /\ incl gs (arg_grid_spacing args).
Proof.
  intros H.
  destruct (main_scan_inv make_constraints_dict load_molecule new_work_queue new_engine
              run_master args gs H) as (idxs & rngs & cd & Hl & _ & Hf).
  exists idxs, rngs. split; [exact Hl|]. exact (format_grid_spacing_ok _ _ _ Hf).
Qed.

(** X10: once [scanner.master()] returns, [main] finishes without raising
    (the lookup [scanner.grid_energies[grid_id]] of the table never misses),
    and every row it prints pairs a grid id with the energy
    [grid_energies] holds for it. *)
Theorem main_table_rows (args : cli_args) (idxs rngs : list (list Z))
    (cd : option Constraints) (gs : list Z) (eng : Engine) (m : option Molecule)
    (grid_energies : list (grid_id * Energy)) :
  load_dihedralfile (arg_dihedralfile args) (arg_zero_based_numbering args) = Ok (idxs, rngs) ->
  constraints_step make_constraints_dict args idxs = Ok cd ->
  format_grid_spacing (arg_grid_spacing args) (length idxs) = Ok gs ->
  fst (engine_step new_work_queue new_engine args cd) = Ok eng ->
  init_coords_step load_molecule args = Ok m ->
  run_master eng idxs rngs gs m = Ok grid_energies ->
  let run := main make_constraints_dict load_molecule new_work_queue new_engine run_master args [] in
  fst run = Ok tt /\
  (forall k e, In (Row k e) (snd run) -> In (k, e) grid_energies).
Proof.
  intros Hl Hc Hf Hg Hi Hr run. unfold run. rewrite main_steps, Hl, Hc, Hf, Hg, Hi, Hr.
  destruct (print_table_events grid_energies
              (main_prefix Energy args ++ engine_events new_work_queue new_engine args cd
                 ++ [EngineCreated; ScanStarted gs]))
    as (added & -> & Ha).
  split; [reflexivity|]. cbn [snd]. intros k e H.
  rewrite !in_app_iff in H. destruct H as [[H|[H|H]]|H].
  - unfold main_prefix in H. destruct (arg_zero_based_numbering args); simpl in H;
      repeat destruct H as [H|H]; (discriminate || contradiction).
  - destruct (engine_events_kind _ _ _ _ _ H). discriminate.
  - simpl in H. repeat destruct H as [H|H]; (discriminate || contradiction).
  - rewrite Forall_forall in Ha. exact (Ha _ H).
Qed.


End MainRuns.

Definition load_error_args : cli_args :=
  mk_cli_args (lit "input.dat") [lit "1 2 3"] None [15] (lit "psi4") None false None true.

Lemma main_load_error_witness :
  load_dihedralfile (arg_dihedralfile load_error_args) (arg_zero_based_numbering load_error_args)
  = Err ValueError /\
  fst (main ok_constraints ok_molecule ok_work_queue ok_engine empty_master
         load_error_args []) = Err ValueError.
Proof.
  assert (H : load_dihedralfile (arg_dihedralfile load_error_args)
                (arg_zero_based_numbering load_error_args) = Err ValueError) by reflexivity.
  split; [exact H|].
  rewrite (main_load_error ok_constraints ok_molecule ok_work_queue ok_engine empty_master
             load_error_args ValueError H).
  reflexivity.
Defined.

Definition constraints_error_args : cli_args :=
  mk_cli_args (lit "input.dat") [lit "1 2 3 4"] None [15; 30; 45] (lit "psi4")
    (Some (lit "$freeze")) false None false.

Definition failing_constraints (_ : pystr) (_ : list (list Z)) : result unit := Err KeyError.

Lemma main_constraints_error_witness :
  load_dihedralfile (arg_dihedralfile constraints_error_args) false = Ok ([[0; 1; 2; 3]], []) /\
  fst (main failing_constraints ok_molecule ok_work_queue ok_engine empty_master
         constraints_error_args []) = Err KeyError.
Proof.
  assert (H : load_dihedralfile (arg_dihedralfile constraints_error_args) false
              = Ok ([[0; 1; 2; 3]], [])) by reflexivity.
  split; [exact H|].
  rewrite (main_constraints_error failing_constraints ok_molecule ok_work_queue ok_engine
             empty_master constraints_error_args _ _ (lit "$freeze") KeyError H eq_refl eq_refl).
  reflexivity.
Defined.

Definition init_coords_error_args : cli_args :=
  mk_cli_args (lit "input.dat") [lit "1 2 3 4"] (Some (lit "missing.xyz")) [15] (lit "psi4")
    None false (Some 9123) false.

Definition failing_molecule (_ : pystr) : result unit := Err ValueError.

Lemma main_init_coords_error_witness :
  load_dihedralfile (arg_dihedralfile init_coords_error_args) false = Ok ([[0; 1; 2; 3]], []) /\
  main ok_constraints failing_molecule ok_work_queue ok_engine empty_master
    init_coords_error_args []
  = (Err ValueError, [Printed (lit "<command line>");
                      EngineEvent (WorkQueueCreated 9123);
                      EngineEvent (EngineConstructorCalled EnginePsi4);
                      EngineCreated]).
Proof.
  assert (H : load_dihedralfile (arg_dihedralfile init_coords_error_args) false
              = Ok ([[0; 1; 2; 3]], [])) by reflexivity.
  split; [exact H|].
  exact (main_init_coords_error ok_constraints failing_molecule ok_work_queue ok_engine
           empty_master init_coords_error_args _ _ None [15] tt (lit "missing.xyz") ValueError
           H eq_refl eq_refl eq_refl eq_refl ltac:(discriminate) eq_refl).
Defined.

Definition scan_example_args : cli_args :=
  mk_cli_args (lit "input.dat") [lit "1 2 3 4"; lit "2 3 4 5"] None [15] (lit "psi4")
    None false None false.

Lemma main_scan_grid_spacing_witness :
  In (ScanStarted [15; 15])
    (snd (main ok_constraints ok_molecule ok_work_queue ok_engine empty_master
            scan_example_args [])) /\
  exists idxs rngs,
    load_dihedralfile (arg_dihedralfile scan_example_args) false = Ok (idxs, rngs) /\
    length [15; 15] = length idxs /\ incl [15; 15] (arg_grid_spacing scan_example_args).
Proof.
  assert (H : In (ScanStarted [15; 15])
                (snd (main ok_constraints ok_molecule ok_work_queue ok_engine empty_master
                        scan_example_args []))).
  { vm_compute. right. right. right. left. reflexivity. }
  split; [exact H|].
  exact (main_scan_grid_spacing ok_constraints ok_molecule ok_work_queue ok_engine empty_master
           scan_example_args _ H).
Defined.

Definition rows_example_master (_ : unit) (_ _ : list (list Z)) (_ : list Z) (_ : option unit)
  : result (list (grid_id * Z)) :=
  Ok [([15], 2); ([-165], 1)].

Lemma main_table_rows_witness :
  load_dihedralfile (arg_dihedralfile table_example_args) false
    = Ok ([[0; 1; 2; 3]; [1; 2; 3; 4]], []) /\
  fst (main ok_constraints ok_molecule ok_work_queue ok_engine rows_example_master
         table_example_args [])
  = Ok tt.
Proof.
  assert (Hl : load_dihedralfile (arg_dihedralfile table_example_args) false
               = Ok ([[0; 1; 2; 3]; [1; 2; 3; 4]], [])) by reflexivity.
  split; [exact Hl|].
  exact (proj1 (main_table_rows ok_constraints ok_molecule ok_work_queue ok_engine
                  rows_example_master table_example_args _ _ None [15; 15] tt None _
                  Hl eq_refl eq_refl eq_refl eq_refl eq_refl)).
Defined.



(** ** Grid-id strings and the constraint block (test_stack_api.py) *)

Lemma split_sep_aux_length (c : ascii) (cur s : pystr) :
  length (split_sep_aux c cur s) = S (count_occ ascii_dec s c).
Proof.
  revert cur. induction s as [|x s IH]; intros cur; simpl; [reflexivity|].
  destruct (Ascii.eqb x c) eqn:E.
  - apply Ascii.eqb_eq in E. subst x. destruct (ascii_dec c c); [|contradiction].
    simpl. now rewrite IH.
  - apply Ascii.eqb_neq in E. destruct (ascii_dec x c); [contradiction|]. apply IH.
Qed.

Lemma parse_int_none_err (xs : list pystr) (f : pystr) :
  In f xs -> parse_int f = None -> parse_ints xs = Err ValueError.
Proof.
  intros Hin Hf. apply parse_ints_err. apply Exists_exists. now exists f.
Qed.

Lemma lstrip_spaces (w : pystr) : Forall (fun c => is_space c = true) w -> lstrip w = [].
Proof. induction w as [|c w IH]; intros H; [reflexivity|]. inversion H; subst. simpl. rewrite H2. auto. Qed.

Lemma parse_int_blank (f : pystr) : Forall (fun c => is_space c = true) f -> parse_int f = None.
Proof. intros H. unfold parse_int, strip. rewrite (lstrip_spaces f H). reflexivity. Qed.

Lemma parse_ints_Forall2 (xs : list pystr) (vs : list Z) :
  parse_ints xs = Ok vs -> Forall2 (fun f v => parse_int f = Some v) xs vs.
Proof.
  revert vs. induction xs as [|x xs IH]; intros vs H; simpl in H.
  - injection H as <-. constructor.
  - destruct (parse_int x) as [v|] eqn:Ex; [|discriminate].
    destruct (parse_ints xs) as [ws|e]; [|discriminate]. injection H as <-.
    constructor; [exact Ex|now apply IH].
Qed.

(** X11: [tuple(int(i) for i in grid_id_str.split(','))] returns one
    integer per comma-separated field, the one [int()] reads from it, so
    as many as there are commas plus one; a field that [int()] refuses
    makes it raise [ValueError], in particular an empty or blank field: the
    empty string, a leading, trailing or doubled comma. *)
Theorem decode_grid_id_fields (s : pystr) :
  (forall t, decode_grid_id s = Ok t ->
     Forall2 (fun f v => parse_int f = Some v) (split_sep ","%char s) t /\
     length t = S (count_occ ascii_dec s ","%char)) /\
  (forall f, In f (split_sep ","%char s) -> parse_int f = None ->
     decode_grid_id s = Err ValueError) /\
  (forall f, In f (split_sep ","%char s) -> Forall (fun c => is_space c = true) f ->
     decode_grid_id s = Err ValueError).
Proof.
  unfold decode_grid_id. split; [|split].
  - intros t H. split; [now apply parse_ints_Forall2|].
    rewrite (parse_ints_length _ _ H). apply split_sep_aux_length.
  - intros f Hin Hf. exact (parse_int_none_err _ f Hin Hf).
  - intros f Hin Hf. exact (parse_int_none_err _ f Hin (parse_int_blank f Hf)).
Qed.

Lemma decode_grid_id_fields_witness :
  decode_grid_id (lit "15,,-30") = Err ValueError /\ decode_grid_id (lit "") = Err ValueError.
Proof.
  destruct (decode_grid_id_fields (lit "15,,-30")) as (_ & _ & H1).
  destruct (decode_grid_id_fields (lit "")) as (_ & _ & H2).
  split.
  - apply (H1 []); [simpl; auto|constructor].
  - apply (H2 []); [simpl; auto|constructor].
Defined.

Lemma lstrip_app_spaces (w x : pystr) :
  Forall (fun c => is_space c = true) w -> lstrip (w ++ x) = lstrip x.
Proof. induction w as [|c w IH]; intros H; [reflexivity|]. inversion H; subst. simpl. rewrite H2. auto. Qed.

Lemma lstrip_nonspace_head (c : ascii) (x : pystr) : is_space c = false -> lstrip (c :: x) = c :: x.
Proof. intros H. simpl. now rewrite H. Qed.

Lemma str_int_last (n : Z) : exists init c, str_int n = init ++ [c] /\ is_space c = false.
Proof.
  destruct (exists_last (str_int_not_nil n)) as (init & c & Hc). exists init, c.
  split; [exact Hc|]. pose proof (str_int_no_space n) as H. rewrite Hc in H.
  apply Forall_app in H as [_ H]. inversion H; assumption.
Qed.

Lemma strip_padded_str_int (w1 w2 : pystr) (n : Z) :
  Forall (fun c => is_space c = true) w1 -> Forall (fun c => is_space c = true) w2 ->
  strip (w1 ++ str_int n ++ w2) = str_int n.
Proof.
  intros H1 H2. unfold strip. rewrite lstrip_app_spaces by exact H1.
  destruct (str_int n) as [|c r] eqn:Es; [exfalso; exact (str_int_not_nil n Es)|].
  assert (Hc : is_space c = false)
    by (pose proof (str_int_no_space n) as H; rewrite Es in H; inversion H; assumption).
  rewrite <- app_comm_cons, lstrip_nonspace_head by exact Hc.
  rewrite app_comm_cons, <- Es. destruct (str_int_last n) as (init & d & Ed & Hd).
  rewrite rev_app_distr, lstrip_app_spaces by (apply Forall_rev; exact H2).
  rewrite Ed, rev_app_distr. simpl. rewrite Hd. simpl. now rewrite rev_involutive.
Qed.

Lemma parse_int_padded (w1 w2 : pystr) (n : Z) :
  Forall (fun c => is_space c = true) w1 -> Forall (fun c => is_space c = true) w2 ->
  parse_int (w1 ++ str_int n ++ w2) = Some n.
Proof.
  intros H1 H2. pose proof (parse_int_str_int n) as H. unfold parse_int in *.
  rewrite strip_padded_str_int by assumption. rewrite strip_id in H by apply str_int_no_space.
  exact H.
Qed.

Lemma split_sep_join (c : ascii) (fields : list pystr) :
  fields <> [] -> Forall (fun f => ~ In c f) fields ->
  split_sep c (join [c] fields) = fields.
Proof.
  unfold split_sep. induction fields as [|f fields IH]; intros Hne H; [congruence|].
  inversion H as [|? ? Hf Hr]; subst. destruct fields as [|f' fields'].
  - simpl. now rewrite split_sep_aux_last.
  - change (join [c] (f :: f' :: fields')) with (f ++ c :: join [c] (f' :: fields')).
    rewrite split_sep_aux_app by exact Hf. rewrite IH by (discriminate || exact Hr). reflexivity.
Qed.

Lemma comma_not_space (c : ascii) : is_space c = true -> c <> ","%char.
Proof. intros H ->. discriminate. Qed.

(** X12: the grid-id decoding ignores whitespace around each number: a
    comma-joined list of integers, each printed by [str] with any
    whitespace before and after it, decodes to those integers. *)
Theorem decode_grid_id_padded (fs : list (pystr * Z * pystr)) :
  fs <> [] ->
  Forall (fun '(w1, _, w2) => Forall (fun c => is_space c = true) w1 /\
                              Forall (fun c => is_space c = true) w2) fs ->
  decode_grid_id (join [","%char] (map (fun '(w1, v, w2) => w1 ++ str_int v ++ w2) fs))
  = Ok (map (fun '(_, v, _) => v) fs).
Proof.
  intros Hne H. unfold decode_grid_id. rewrite split_sep_join.
  - induction fs as [|[[w1 v] w2] fs IH]; [reflexivity|].
    inversion H as [|? ? Hx Hr]; subst. destruct Hx as [H1 H2]. simpl.
    rewrite parse_int_padded by assumption.
    destruct fs as [|x fs']; [reflexivity|]. rewrite IH by (discriminate || exact Hr). reflexivity.
  - destruct fs; [congruence|discriminate].
  - apply Forall_forall. intros f Hf. apply in_map_iff in Hf as ([[w1 v] w2] & <- & Hin).
    rewrite Forall_forall in H. destruct (H _ Hin) as [H1 H2].
    rewrite !in_app_iff. intros [Hc|[Hc|Hc]].
    + rewrite Forall_forall in H1. exact (comma_not_space _ (H1 _ Hc) eq_refl).
    + exact (comma_not_in_str_int v Hc).
    + rewrite Forall_forall in H2. exact (comma_not_space _ (H2 _ Hc) eq_refl).
Qed.

Lemma decode_grid_id_padded_witness :
  decode_grid_id (lit " -165 , 30") = Ok [-165; 30].
Proof.
  exact (decode_grid_id_padded [(lit " ", -165, lit " "); (lit " ", 30, [])]
           ltac:(discriminate) ltac:(repeat constructor)).
Defined.

Lemma combine_firstn_min {A B} (xs : list A) (ys : list B) :
  combine xs ys
  = combine (firstn (Nat.min (length xs) (length ys)) xs)
            (firstn (Nat.min (length xs) (length ys)) ys).
Proof.
  revert ys. induction xs as [|x xs IH]; intros [|y ys]; try reflexivity.
  simpl. now rewrite <- IH.
Qed.

(** X13: [make_geomeTRIC_input] pairs dihedrals and target values with
    [zip], which stops at the shorter list: the constraint block is the one
    built from the first [n = min(len(self.dihedrals), len(dihedral_values))]
    of each, so the others are dropped without being formatted (a value too
    large for a float raises nothing there); when those [n] values are
    printed exactly by [%f], the block has one [dihedral] line for each of
    the first [n] dihedrals. *)
Theorem make_geomeTRIC_constraints_zip (ds : list (Z * Z * Z * Z)) (vs : list Z) :
  let n := Nat.min (length ds) (length vs) in
  make_geomeTRIC_constraints ds vs = make_geomeTRIC_constraints (firstn n ds) (firstn n vs) /\
  (Forall (fun v => Z.abs v <= 2 ^ 53) (firstn n vs) ->
   exists s, make_geomeTRIC_constraints ds vs = Ok s /\
     split_sep nl s
     = lit "$set" :: map (fun dv => join [sp] (constraint_text dv))
                       (combine (firstn n ds) (firstn n vs)) ++ [[]] /\
     length (split_sep nl s) = (n + 2)%nat).
Proof.
  intros n. assert (Hc : combine ds vs = combine (firstn n ds) (firstn n vs))
    by apply combine_firstn_min.
  split.
  - unfold make_geomeTRIC_constraints. now rewrite Hc.
  - intros Hv.
    assert (Hb : Forall (fun dv => Z.abs (snd dv) <= 2 ^ 53) (combine ds vs))
      by (rewrite Hc; exact (combine_Forall_snd (fun v => Z.abs v <= 2 ^ 53) _ _ Hv)).
    destruct (constraints_split ds vs Hb) as (s & Hs & Hsplit). rewrite Hc in Hsplit.
    exists s. split; [exact Hs|]. split; [exact Hsplit|].
    rewrite Hsplit. simpl. rewrite length_app, length_map, length_combine, !length_firstn. simpl. unfold n. lia.
Qed.

Lemma make_geomeTRIC_constraints_zip_witness :
  Forall (fun v => Z.abs v <= 2 ^ 53) (firstn 1 [30; 2 ^ 1024]) /\
  make_geomeTRIC_constraints [(0, 1, 2, 3)] [30; 2 ^ 1024]
  = Ok (lit "$set" ++ [nl] ++ lit "dihedral 1 2 3 4 30.000000" ++ [nl]).
Proof.
  assert (Hv : Forall (fun v => Z.abs v <= 2 ^ 53) (firstn 1 [30; 2 ^ 1024]))
    by (repeat constructor; vm_compute; discriminate).
  split; [exact Hv|].
  destruct (proj2 (make_geomeTRIC_constraints_zip [(0, 1, 2, 3)] [30; 2 ^ 1024]) Hv)
    as (s & Hs & _).
  rewrite Hs. f_equal.
  assert (E : make_geomeTRIC_constraints [(0, 1, 2, 3)] [30; 2 ^ 1024]
              = Ok (lit "$set" ++ [nl] ++ lit "dihedral 1 2 3 4 30.000000" ++ [nl]))
    by (vm_compute; reflexivity).
  rewrite Hs in E. injection E as E. exact E.
Defined.

(** ** [create_engine] *)

Lemma engine_dict_none (enginename : pystr) :
  ~ In enginename [lit "psi4"; lit "qchem"; lit "terachem"] -> engine_dict enginename = None.
Proof.
  intros H. unfold engine_dict.
  destruct (str_eqb enginename (lit "psi4")) eqn:E1;
    [apply str_eqb_eq in E1; subst; exfalso; apply H; simpl; auto|].
  destruct (str_eqb enginename (lit "qchem")) eqn:E2;
    [apply str_eqb_eq in E2; subst; exfalso; apply H; simpl; auto|].
  destruct (str_eqb enginename (lit "terachem")) eqn:E3;
    [apply str_eqb_eq in E3; subst; exfalso; apply H; simpl; auto|].
  reflexivity.
Qed.

Section CreateEngineProofs.

Variables Engine WorkQueue Constraints : Type.
Variable new_work_queue : Z -> result WorkQueue.
Variable new_engine : engine_class -> option pystr -> option WorkQueue -> bool
  -> option Constraints -> result Engine.

(** X14: [create_engine] raises [KeyError] for an engine name other than
    ["psi4"], ["qchem"] and ["terachem"] (compared case-sensitively), and
    then calls no engine class; the [WorkQueue] is created before the name
    is looked up, so with a port it has already been opened when the
    [KeyError] is raised, and a failure to open it is what is reported. *)
Theorem create_engine_unknown_name (enginename : pystr) (inputfile : option pystr)
    (native_opt : bool) (extra_constraints : option Constraints) :
  ~ In enginename [lit "psi4"; lit "qchem"; lit "terachem"] ->
  create_engine new_work_queue new_engine enginename inputfile None native_opt extra_constraints
  = (Err KeyError, []) /\
  (forall port q, new_work_queue port = Ok q ->
     create_engine new_work_queue new_engine enginename inputfile (Some port) native_opt
       extra_constraints
     = (Err KeyError, [WorkQueueCreated port])) /\
  (forall port e, new_work_queue port = Err e ->
     create_engine new_work_queue new_engine enginename inputfile (Some port) native_opt
       extra_constraints
     = (Err e, [])).
Proof.
  intros H. pose proof (engine_dict_none enginename H) as Hd. unfold create_engine.
  split; [|split].
  - cbn iota beta. rewrite Hd. reflexivity.
  - intros port q Hq. rewrite Hq. cbn iota beta. rewrite Hd. reflexivity.
  - intros port e He. rewrite He. reflexivity.
Qed.

(** X15: for the names ["psi4"], ["qchem"] and ["terachem"],
    [create_engine] calls [EnginePsi4], [EngineQChem] and [EngineTerachem]
    respectively, with the input file, the native-optimizer flag and the
    extra constraints passed through, and a work queue exactly when a port
    is given (the one opened on that port); it returns what the engine
    class returns. *)
Theorem create_engine_known_name (enginename : pystr) (cls : engine_class)
    (inputfile : option pystr) (native_opt : bool) (extra_constraints : option Constraints) :
  In (enginename, cls)
    [(lit "psi4", EnginePsi4); (lit "qchem", EngineQChem); (lit "terachem", EngineTerachem)] ->
  create_engine new_work_queue new_engine enginename inputfile None native_opt extra_constraints
  = (new_engine cls inputfile None native_opt extra_constraints, [EngineConstructorCalled cls]) /\
  (forall port q, new_work_queue port = Ok q ->
     create_engine new_work_queue new_engine enginename inputfile (Some port) native_opt
       extra_constraints
     = (new_engine cls inputfile (Some q) native_opt extra_constraints,
        [WorkQueueCreated port; EngineConstructorCalled cls])).
Proof.
  intros H.
  assert (Hd : engine_dict enginename = Some cls).
  { simpl in H. destruct H as [H|[H|[H|[]]]]; injection H as <- <-; reflexivity. }
  unfold create_engine. rewrite Hd. split; [reflexivity|].
  intros port q Hq. rewrite Hq. reflexivity.
Qed.

End CreateEngineProofs.

Lemma create_engine_unknown_name_witness :
  create_engine (Engine := unit) (Constraints := unit) (fun p => Ok p) (fun _ _ _ _ _ => Ok tt)
    (lit "PSI4") None (Some 9123) false None
  = (Err KeyError, [WorkQueueCreated 9123]).
Proof.
  assert (H : ~ In (lit "PSI4") [lit "psi4"; lit "qchem"; lit "terachem"]).
  { vm_compute. intros H. repeat destruct H as [H|H]; (discriminate || contradiction). }
  exact (proj1 (proj2 (create_engine_unknown_name unit Z unit (fun p => Ok p)
           (fun _ _ _ _ _ => Ok tt) (lit "PSI4") None false None H)) 9123 9123 eq_refl).
Defined.

Lemma create_engine_known_name_witness :
  create_engine (Engine := engine_class * option Z) (Constraints := unit) (fun p => Ok p)
    (fun cls _ wq _ _ => Ok (cls, wq)) (lit "qchem") None (Some 9123) false None
  = (Ok (EngineQChem, Some 9123), [WorkQueueCreated 9123; EngineConstructorCalled EngineQChem]).
Proof.
  apply (create_engine_known_name (engine_class * option Z) Z unit (fun p => Ok p)
           (fun cls _ wq _ _ => Ok (cls, wq)) (lit "qchem") EngineQChem None false None);
    [simpl; auto|reflexivity].
Defined.

(** ** Step 4 of [SimpleServer.run_crank_scan] *)

Lemma str_eqb_refl (s : pystr) : str_eqb s s = true.
Proof. now apply str_eqb_eq. Qed.

Lemma str_eqb_neq (a b : pystr) : a <> b -> str_eqb a b = false.
Proof. intros H. apply not_true_iff_false. intros E. apply str_eqb_eq in E. contradiction. Qed.

Lemma dd_append_absent {V} (k : pystr) (v : V) (d : list (pystr * list V)) :
  ~ In k (map fst d) -> dd_append k v d = d ++ [(k, [v])].
Proof.
  induction d as [|[k' vs] d IH]; intros H; [reflexivity|]. simpl in *.
  rewrite str_eqb_neq by (intros ->; apply H; left; reflexivity).
  rewrite IH by (intros Hk; apply H; right; exact Hk). reflexivity.
Qed.

Lemma dd_append_last {V} (k : pystr) (v : V) (pre : list (pystr * list V)) (vs : list V) :
  ~ In k (map fst pre) -> dd_append k v (pre ++ [(k, vs)]) = pre ++ [(k, vs ++ [v])].
Proof.
  induction pre as [|[k' ws] pre IH]; intros H; simpl.
  - now rewrite str_eqb_refl.
  - simpl in H. rewrite str_eqb_neq by (intros ->; apply H; left; reflexivity).
    rewrite IH by (intros Hk; apply H; right; exact Hk). reflexivity.
Qed.

Section SimpleServerProofs.

Variables Geo Energy Elem : Type.
Variable dihedrals : list (Z * Z * Z * Z).
Variable elements : Elem.
Variable geometric_run_json : geometric_input Geo Elem -> result (Geo * Energy).

(** A result recorded for grid id [g]: the start geometry, and the final
    geometry and energy geomeTRIC returned for it with the input built from
    the decoded grid id. *)
Definition job_ok (g : pystr) (r : Geo * Geo * Energy) : Prop :=
  let '(job_geo, final_geo, final_energy) := r in
  exists dihedral_values geometric_input_dict,
    decode_grid_id g = Ok dihedral_values /\
    make_geomeTRIC_input dihedrals elements dihedral_values job_geo = Ok geometric_input_dict /\
    geometric_run_json geometric_input_dict = Ok (final_geo, final_energy).

Definition job_geos (rs : list (Geo * Geo * Energy)) : list Geo :=
  map (fun r => fst (fst r)) rs.

Definition has_jobs (item : pystr * list Geo) : bool :=
  match snd item with [] => false | _ => true end.

Definition result_geos (item : pystr * list (Geo * Geo * Energy)) : pystr * list Geo :=
  (fst item, job_geos (snd item)).

Lemma run_group_cont (g : pystr) (geos : list Geo) (pre : list (pystr * list (Geo * Geo * Energy)))
    (rs0 : list (Geo * Geo * Energy)) acc' :
  ~ In g (map fst pre) ->
  run_group dihedrals elements geometric_run_json g geos (pre ++ [(g, rs0)]) = Ok acc' ->
  exists rs, acc' = pre ++ [(g, rs0 ++ rs)] /\ job_geos rs = geos /\ Forall (job_ok g) rs.
Proof.
  intros Hg. revert rs0. induction geos as [|geo geos IH]; intros rs0 H; simpl in H.
  - injection H as <-. exists []. now rewrite app_nil_r.
  - destruct (decode_grid_id g) as [vs|e] eqn:Ed; [|discriminate]. cbn [bind] in H.
    destruct (make_geomeTRIC_input dihedrals elements vs geo) as [inp|e] eqn:Ei;
      [|discriminate]. cbn [bind] in H.
    destruct (geometric_run_json inp) as [[fg fe]|e] eqn:Er; [|discriminate].
    cbn [bind fst snd] in H.
    rewrite dd_append_last in H by exact Hg.
    destruct (IH _ H) as (rs & -> & Hgeos & Hok).
    exists ((geo, fg, fe) :: rs). rewrite <- app_assoc. split; [reflexivity|split].
    + simpl. now rewrite <- Hgeos.
    + constructor; [|exact Hok]. exists vs, inp. repeat split; assumption.
Qed.

Lemma run_group_new (g : pystr) (geos : list Geo) (acc : list (pystr * list (Geo * Geo * Energy))) acc' :
  ~ In g (map fst acc) ->
  run_group dihedrals elements geometric_run_json g geos acc = Ok acc' ->
  exists added, acc' = acc ++ added /\
    map result_geos added = (if has_jobs (g, geos) then [(g, geos)] else []) /\
    Forall (fun p => Forall (job_ok (fst p)) (snd p)) added /\
    Forall (fun p => fst p = g) added.
Proof.
  intros Hg H. destruct geos as [|geo geos]; simpl in H.
  - injection H as <-. exists []. rewrite app_nil_r. repeat split; constructor.
  - destruct (decode_grid_id g) as [vs|e] eqn:Ed; [|discriminate]. cbn [bind] in H.
    destruct (make_geomeTRIC_input dihedrals elements vs geo) as [inp|e] eqn:Ei;
      [|discriminate]. cbn [bind] in H.
    destruct (geometric_run_json inp) as [[fg fe]|e] eqn:Er; [|discriminate].
    cbn [bind fst snd] in H.
    rewrite dd_append_absent in H by exact Hg.
    change [(geo, fg, fe)] with ([] ++ [(geo, fg, fe)]) in H.
    destruct (run_group_cont g geos acc _ acc' Hg H) as (rs & -> & Hgeos & Hok).
    exists [(g, (geo, fg, fe) :: rs)]. split; [reflexivity|split; [|split]].
    + unfold result_geos, job_geos in *. simpl. now rewrite Hgeos.
    + repeat constructor; [exists vs, inp; repeat split; assumption|exact Hok].
    + repeat constructor.
Qed.

Lemma run_batch_spec (items : list (pystr * list Geo)) (acc acc' : list (pystr * list (Geo * Geo * Energy))) :
  NoDup (map fst items) ->
  (forall g, In g (map fst items) -> ~ In g (map fst acc)) ->
  run_batch dihedrals elements geometric_run_json items acc = Ok acc' ->
  exists added, acc' = acc ++ added /\ map result_geos added = filter has_jobs items /\
    Forall (fun p => Forall (job_ok (fst p)) (snd p)) added.
Proof.
  revert acc. induction items as [|[g geos] items IH]; intros acc Hnd Hfresh H; simpl in H.
  - injection H as <-. exists []. rewrite app_nil_r. repeat split; constructor.
  - destruct (run_group dihedrals elements geometric_run_json g geos acc) as [jr|e] eqn:Eg;
      [|discriminate]. cbn [bind] in H.
    simpl in Hnd. inversion Hnd as [|? ? Hnotin Hnd']; subst.
    destruct (run_group_new g geos acc jr (Hfresh g (or_introl eq_refl)) Eg)
      as (a1 & -> & Hm1 & Hok1 & Hk1).
    destruct (IH (acc ++ a1) Hnd') as (a2 & -> & Hm2 & Hok2); [|exact H|].
    + intros g' Hg'. rewrite map_app, in_app_iff. intros [Ha|Ha].
      * exact (Hfresh g' (or_intror Hg') Ha).
      * apply in_map_iff in Ha as (p & <- & Hp). rewrite Forall_forall in Hk1.
        rewrite (Hk1 p Hp) in Hg'. contradiction.
    + exists (a1 ++ a2). rewrite <- app_assoc. split; [reflexivity|split].
      * rewrite map_app, Hm1, Hm2. simpl. destruct (has_jobs (g, geos)); reflexivity.
      * apply Forall_app. split; assumption.
Qed.

(** X16: the [job_results] of one batch list, in the order of [next_jobs],
    exactly the grid ids that have at least one job; for each, the results
    are in the order of its jobs, and each pairs the start geometry with
    the final geometry and energy that geomeTRIC returned when run from it
    with the constraints of the decoded grid id.  ([next_jobs] is a dict:
    its keys are distinct.) *)
Theorem collect_job_results_spec (next_jobs : list (pystr * list Geo))
    (job_results : list (pystr * list (Geo * Geo * Energy))) :
  NoDup (map fst next_jobs) ->
  collect_job_results dihedrals elements geometric_run_json next_jobs = Ok job_results ->
  map result_geos job_results = filter has_jobs next_jobs /\
  Forall (fun p => Forall (job_ok (fst p)) (snd p)) job_results.
Proof.
  intros Hnd H. unfold collect_job_results in H.
  destruct (run_batch_spec next_jobs [] job_results Hnd (fun _ _ H => H) H)
    as (added & -> & Hm & Hok).
  split; assumption.
Qed.

Lemma run_batch_app (a b : list (pystr * list Geo)) (acc : list (pystr * list (Geo * Geo * Energy))) :
  run_batch dihedrals elements geometric_run_json (a ++ b) acc
  = (acc' <- run_batch dihedrals elements geometric_run_json a acc ;;
     run_batch dihedrals elements geometric_run_json b acc').
Proof.
  revert acc. induction a as [|[g geos] a IH]; intros acc; simpl; [reflexivity|].
  destruct (run_group _ _ _ g geos acc); simpl; [apply IH|reflexivity].
Qed.

(** X17: a grid id with an empty job list is skipped by the loop: it is
    never decoded (a malformed one raises nothing) and does not appear in
    [job_results]. *)
Theorem collect_job_results_no_jobs (pre post : list (pystr * list Geo)) (g : pystr) :
  collect_job_results dihedrals elements geometric_run_json (pre ++ (g, []) :: post)
  = collect_job_results dihedrals elements geometric_run_json (pre ++ post).
Proof.
  unfold collect_job_results. rewrite !run_batch_app.
  destruct (run_batch _ _ _ pre []); reflexivity.
Qed.

(** X18: a grid id with at least one job whose string does not decode (for
    instance one with an empty field) makes the batch raise the decoding
    error when the loop reaches it, before geomeTRIC is run for it. *)
Theorem collect_job_results_bad_grid_id (pre post : list (pystr * list Geo)) (g : pystr)
    (geo : Geo) (geos : list Geo) (acc : list (pystr * list (Geo * Geo * Energy))) (e : py_error) :
  run_batch dihedrals elements geometric_run_json pre [] = Ok acc ->
  decode_grid_id g = Err e ->
  collect_job_results dihedrals elements geometric_run_json (pre ++ (g, geo :: geos) :: post)
  = Err e.
Proof.
  intros Hpre Hd. unfold collect_job_results. rewrite run_batch_app, Hpre. cbn [bind run_batch run_group].
  rewrite Hd. reflexivity.
Qed.

End SimpleServerProofs.

Lemma collect_job_results_spec_witness :
  NoDup (map fst [(lit "-90", [1%nat; 2%nat]); (lit "0", []); (lit "90", [3%nat])]) /\
  map (result_geos nat unit)
    [(lit "-90", [(1%nat, 1%nat, tt); (2%nat, 2%nat, tt)]); (lit "90", [(3%nat, 3%nat, tt)])]
  = filter (has_jobs nat) [(lit "-90", [1%nat; 2%nat]); (lit "0", []); (lit "90", [3%nat])].
Proof.
  assert (Hnd : NoDup (map fst [(lit "-90", [1%nat; 2%nat]); (lit "0", []); (lit "90", [3%nat])])).
  { simpl. repeat constructor; simpl; intros H; repeat destruct H as [H|H];
      (discriminate || contradiction). }
  split; [exact Hnd|].
  exact (proj1 (collect_job_results_spec nat unit unit [(0, 1, 2, 3)] tt
                  (fun gi => Ok (gi_geometry _ _ gi, tt)) _ _ Hnd eq_refl)).
Defined.

Lemma collect_job_results_bad_grid_id_witness :
  collect_job_results (Energy := unit) [(0, 1, 2, 3)] tt (fun gi => Ok (gi_geometry _ _ gi, tt))
    ([(lit "30", [1%nat])] ++ (lit "30,", [2%nat]) :: []) = Err ValueError.
Proof.
  exact (collect_job_results_bad_grid_id nat unit unit [(0, 1, 2, 3)] tt
           (fun gi => Ok (gi_geometry _ _ gi, tt)) [(lit "30", [1%nat])] [] (lit "30,") 2%nat []
           [(lit "30", [(1%nat, 1%nat, tt)])] ValueError eq_refl eq_refl).
Defined.
